(** * Link-syscall monitor and HTTP buffer capture: a shallow embedding

    The development follows two files of the agent's eBPF C sources:

    - [pkg/security/ebpf/c/include/hooks/link.h], the probes that follow one
      [link]/[linkat] system call from entry to exit (module [Link]);
    - [pkg/network/ebpf/c/protocols/http/buffer.h], the fixed-size capture of
      user data ([read_into_buffer], module [HttpBuffer]).

    The segmented path resolver of [helpers/path_resolver.h] is not among the
    sources; module [PathResolver] models it from the specification. *)

From Stdlib Require Import ZArith List Bool Lia.
From Stdlib Require Import Strings.Byte Strings.String.
From stdpp Require Import base option list gmap strings.
Import ListNotations.

Local Open Scope Z_scope.

(** ** Machine integers *)

(** [u32], [u64]: the value of an unsigned 32- or 64-bit C expression. *)
Definition u32 (z : Z) : Z := z mod 2 ^ 32.
Definition u64 (z : Z) : Z := z mod 2 ^ 64.

(** [int32]: conversion to C's [int] (two's complement, as the compilers of
    the eBPF targets implement it). *)
Definition int32 (z : Z) : Z := (z + 2 ^ 31) mod 2 ^ 32 - 2 ^ 31.

Module Link.

(** ** Data model *)

(** The only event type the hooks of [link.h] name. *)
Inductive event_type := EVENT_LINK.

Inductive policy_mode := NO_FILTER | ALLOW_LIST | DENY_LIST.

Record policy_t := {
  policy_mode_of : policy_mode;
  policy_flags : Z
}.

(** The [async] marker of a cache entry: [SYNC_SYSCALL] for an entry made at
    the system-call boundary, [ASYNC_SYSCALL] for one made inside
    [do_linkat]. The source tests it as a C truth value. *)
Inductive async_t := SYNC_SYSCALL | ASYNC_SYSCALL.

Definition async_truth (a : async_t) : bool :=
  match a with SYNC_SYSCALL => false | ASYNC_SYSCALL => true end.

(** Identifier of a completion handler in the resolver's callback table.
    [PR_PROGKEY_CB_UNSET] is the value of a zero-initialised entry. *)
Inductive callback_id :=
  | PR_PROGKEY_CB_UNSET
  | PR_PROGKEY_CB_LINK_SRC_KPROBE
  | PR_PROGKEY_CB_LINK_DST.

Inductive dr_type := DR_KPROBE | DR_TRACEPOINT.

Inductive vfs_arg_position := VFS_ARG_POSITION3 | VFS_ARG_POSITION4.

(** Kernel pointers ([struct dentry *], [struct path *]) are opaque handles;
    0 is [NULL]. *)
Definition dentry_ptr := Z.
Definition path_ptr := Z.

Record path_key_t := {
  pk_ino : Z;
  pk_mount_id : Z;
  pk_path_id : Z
}.

(** The metadata block of a file record; the hooks only copy it whole. *)
Record file_metadata_t := { metadata_words : list Z }.

Record file_t := {
  f_path_key : path_key_t;
  f_flags : Z;
  f_metadata : file_metadata_t;
  f_path_ref : Z
}.

Record link_t := {
  l_src_dentry : dentry_ptr;
  l_target_dentry : dentry_ptr;
  l_target_path : path_ptr;
  l_src_file : file_t;
  l_target_file : file_t
}.

(** [syscall->resolver]: the resolver's continuation record. *)
Record dentry_resolver_input_t := {
  r_key : path_key_t;
  r_dentry : dentry_ptr;
  r_discarder_type : option event_type;   (* 0 is [None] *)
  r_callback : callback_id;
  r_iteration : Z;
  r_ret : Z
}.

Record syscall_cache_t := {
  sc_type : event_type;
  sc_policy : policy_t;
  sc_async : async_t;
  sc_discarded : bool;
  sc_resolver : dentry_resolver_input_t;
  sc_link : link_t
}.

Record link_event_t := {
  ev_type : event_type;
  ev_timestamp : Z;
  ev_flags : Z;
  ev_retval : Z;
  ev_process : Z;
  ev_container : Z;
  ev_span : Z;
  ev_source : file_t;
  ev_target : file_t
}.

(** Zero-initialised values, as a C initialiser leaves the fields it does
    not name. *)
Definition zero_key : path_key_t :=
  {| pk_ino := 0; pk_mount_id := 0; pk_path_id := 0 |}.
Definition zero_file : file_t :=
  {| f_path_key := zero_key; f_flags := 0;
     f_metadata := {| metadata_words := [] |}; f_path_ref := 0 |}.
Definition zero_link : link_t :=
  {| l_src_dentry := 0; l_target_dentry := 0; l_target_path := 0;
     l_src_file := zero_file; l_target_file := zero_file |}.
Definition zero_resolver : dentry_resolver_input_t :=
  {| r_key := zero_key; r_dentry := 0; r_discarder_type := None;
     r_callback := PR_PROGKEY_CB_UNSET; r_iteration := 0; r_ret := 0 |}.

(** Field updates. *)
Definition set_pk_ino (v : Z) (k : path_key_t) : path_key_t :=
  {| pk_ino := v; pk_mount_id := pk_mount_id k; pk_path_id := pk_path_id k |}.
Definition set_pk_mount_id (v : Z) (k : path_key_t) : path_key_t :=
  {| pk_ino := pk_ino k; pk_mount_id := v; pk_path_id := pk_path_id k |}.

Definition set_f_path_key (v : path_key_t) (f : file_t) : file_t :=
  {| f_path_key := v; f_flags := f_flags f; f_metadata := f_metadata f;
     f_path_ref := f_path_ref f |}.
Definition set_f_flags (v : Z) (f : file_t) : file_t :=
  {| f_path_key := f_path_key f; f_flags := v; f_metadata := f_metadata f;
     f_path_ref := f_path_ref f |}.
Definition set_f_metadata (v : file_metadata_t) (f : file_t) : file_t :=
  {| f_path_key := f_path_key f; f_flags := f_flags f; f_metadata := v;
     f_path_ref := f_path_ref f |}.
Definition set_f_path_ref (v : Z) (f : file_t) : file_t :=
  {| f_path_key := f_path_key f; f_flags := f_flags f;
     f_metadata := f_metadata f; f_path_ref := v |}.

Definition set_l_src_dentry (v : dentry_ptr) (l : link_t) : link_t :=
  {| l_src_dentry := v; l_target_dentry := l_target_dentry l;
     l_target_path := l_target_path l; l_src_file := l_src_file l;
     l_target_file := l_target_file l |}.
Definition set_l_target_dentry (v : dentry_ptr) (l : link_t) : link_t :=
  {| l_src_dentry := l_src_dentry l; l_target_dentry := v;
     l_target_path := l_target_path l; l_src_file := l_src_file l;
     l_target_file := l_target_file l |}.
Definition set_l_src_file (v : file_t) (l : link_t) : link_t :=
  {| l_src_dentry := l_src_dentry l; l_target_dentry := l_target_dentry l;
     l_target_path := l_target_path l; l_src_file := v;
     l_target_file := l_target_file l |}.
Definition set_l_target_file (v : file_t) (l : link_t) : link_t :=
  {| l_src_dentry := l_src_dentry l; l_target_dentry := l_target_dentry l;
     l_target_path := l_target_path l; l_src_file := l_src_file l;
     l_target_file := v |}.

Definition set_r_ret (v : Z) (r : dentry_resolver_input_t) :
  dentry_resolver_input_t :=
  {| r_key := r_key r; r_dentry := r_dentry r;
     r_discarder_type := r_discarder_type r; r_callback := r_callback r;
     r_iteration := r_iteration r; r_ret := v |}.

Definition set_sc_discarded (v : bool) (sc : syscall_cache_t) :
  syscall_cache_t :=
  {| sc_type := sc_type sc; sc_policy := sc_policy sc;
     sc_async := sc_async sc; sc_discarded := v;
     sc_resolver := sc_resolver sc; sc_link := sc_link sc |}.
Definition set_sc_resolver (v : dentry_resolver_input_t)
  (sc : syscall_cache_t) : syscall_cache_t :=
  {| sc_type := sc_type sc; sc_policy := sc_policy sc;
     sc_async := sc_async sc; sc_discarded := sc_discarded sc;
     sc_resolver := v; sc_link := sc_link sc |}.
Definition set_sc_link (v : link_t) (sc : syscall_cache_t) :
  syscall_cache_t :=
  {| sc_type := sc_type sc; sc_policy := sc_policy sc;
     sc_async := sc_async sc; sc_discarded := sc_discarded sc;
     sc_resolver := sc_resolver sc; sc_link := v |}.

(** ** The helpers the hooks call

    [link.h] includes its helpers from headers that are not part of the
    sources at hand. What they compute from kernel memory and from the
    configuration maps is gathered in a record the hooks are parameterised
    by; every theorem below holds for any such record. *)
Record kernel := {
  (* helpers/approvers.h, helpers/discarders.h *)
  fetch_policy : event_type -> policy_t;
  is_discarded_by_process : policy_mode -> event_type -> bool;
  link_approvers : syscall_cache_t -> bool;
  is_event_enabled : event_type -> bool;
  (* helpers/filesystem.h *)
  get_vfs_link_target_dentry_position : vfs_arg_position;
  get_path_mount_id : path_ptr -> Z;
  set_file_inode : dentry_ptr -> file_t -> Z -> file_t;
  fill_file_metadata : dentry_ptr -> file_metadata_t;
  is_overlayfs : dentry_ptr -> bool;
  (* helpers/syscalls.h and the event headers *)
  IS_UNHANDLED_ERROR : Z -> bool;
  fill_process_context : Z;
  fill_container_context : Z;
  fill_span_context : Z;
  (* constants *)
  FAKE_INODE_MSW : Z;
  UPPER_LAYER : Z;
  EVENT_FLAGS_ASYNC : Z;
  DENTRY_DISCARDED : Z
}.

(** Registers of a kprobe or kretprobe context and the record of the
    [sys_exit] tracepoint. *)
Record pt_regs := {
  PT_REGS_PARM1 : Z;
  PT_REGS_PARM3 : Z;
  PT_REGS_PARM4 : Z;
  PT_REGS_RC : Z
}.

(** [ret] is the only field the hooks read; the completion handler reads it
    from the same memory as [struct tracepoint_syscalls_sys_exit_t]. *)
Record tracepoint_raw_syscalls_sys_exit_t := { tp_ret : Z }.

(** [void *ctx] travels with the [dr_type] that tells what it points to. *)
Definition ctx_of (dr : dr_type) : Type :=
  match dr with
  | DR_KPROBE => pt_regs
  | DR_TRACEPOINT => tracepoint_raw_syscalls_sys_exit_t
  end.

(** Modelled from the spec: the outcome of one use of [resolve_path]
    ([helpers/path_resolver.h], not among the sources). [resolve_path] is a
    tail call into the resolver. When the call cannot be issued, control
    comes back to the caller ([TailCallFailed]). Otherwise the caller never
    resumes: the resolver chain runs to a terminal state, records its last
    return code [ret] in the continuation record, leaves the reference to
    the components it wrote ([ref]) in the path ring buffer, and invokes the
    completion handler selected by the record's callback id. *)
Inductive resolve_outcome :=
  | TailCallFailed
  | Completed (ret : Z) (ref : Z).

(** What the kernel's own helpers return during one probe invocation and the
    chain of tail calls it starts. *)
Record helpers_t := {
  bpf_get_prandom_u32 : Z;
  bpf_ktime_get_ns : Z;
  path_resolution : resolve_outcome
}.

(** ** State of one thread's monitoring

    [syscalls] is the syscall cache slot of the key (this thread,
    [EVENT_LINK]); [ring_ref] is what [fill_path_ring_buffer_ref] reads;
    [events] is the ring buffer [send_event] writes; [invalidations] records
    the calls of [invalidate_inode]; [discarded_stats] counts
    [monitor_discarded]. Three ghost counters: [resolver_calls] counts the
    uses of [resolve_path], [pushes] and [pops] the entries put into and
    taken out of the slot. *)
Record state := {
  syscalls : option syscall_cache_t;
  ring_ref : Z;
  events : list link_event_t;
  invalidations : list (Z * Z * bool);
  discarded_stats : nat;
  resolver_calls : nat;
  pushes : nat;
  pops : nat
}.

Definition set_syscalls (v : option syscall_cache_t) (st : state) : state :=
  {| syscalls := v; ring_ref := ring_ref st; events := events st;
     invalidations := invalidations st;
     discarded_stats := discarded_stats st;
     resolver_calls := resolver_calls st;
     pushes := pushes st; pops := pops st |}.

Definition set_ring_ref (v : Z) (st : state) : state :=
  {| syscalls := syscalls st; ring_ref := v; events := events st;
     invalidations := invalidations st;
     discarded_stats := discarded_stats st;
     resolver_calls := resolver_calls st;
     pushes := pushes st; pops := pops st |}.

(** Modelled from the spec: the syscall cache ([helpers/syscalls.h], not
    among the sources). [push] is a no-op when the key already holds an
    entry, [peek] returns the current entry or none, [pop] removes and
    returns it. *)
Definition cache_syscall (sc : syscall_cache_t) (st : state) : state :=
  match syscalls st with
  | Some _ => st
  | None =>
      {| syscalls := Some sc; ring_ref := ring_ref st; events := events st;
         invalidations := invalidations st;
         discarded_stats := discarded_stats st;
         resolver_calls := resolver_calls st;
         pushes := S (pushes st); pops := pops st |}
  end.

Definition peek_syscall (ty : event_type) (st : state) :
  option syscall_cache_t := syscalls st.

Definition pop_syscall (ty : event_type) (st : state) :
  option syscall_cache_t * state :=
  match syscalls st with
  | None => (None, st)
  | Some sc =>
      (Some sc,
       {| syscalls := None; ring_ref := ring_ref st; events := events st;
          invalidations := invalidations st;
          discarded_stats := discarded_stats st;
          resolver_calls := resolver_calls st;
          pushes := pushes st; pops := S (pops st) |})
  end.

(** Modelled from the spec: [mark_as_discarded] ([helpers/discarders.h], not
    among the sources). Discarding is lazy: the entry stays in the cache and
    is flagged, which [sys_link_ret] reads as [syscall->discarded]. *)
Definition mark_as_discarded (sc : syscall_cache_t) (st : state) : state :=
  set_syscalls (Some (set_sc_discarded true sc)) st.

(** Modelled from the spec: [filter_syscall] ([helpers/approvers.h], not
    among the sources), true when the entry is to be discarded: under
    [DENY_LIST] a match discards, under [ALLOW_LIST] a non-match discards;
    [NO_FILTER] filters nothing. *)
Definition filter_syscall (K : kernel) (sc : syscall_cache_t) : bool :=
  match policy_mode_of (sc_policy sc) with
  | NO_FILTER => false
  | DENY_LIST => link_approvers K sc
  | ALLOW_LIST => negb (link_approvers K sc)
  end.

(** The remaining helpers act on maps and ring buffers outside [link.h];
    the state records that they were called, and with what. *)
Definition monitor_discarded (ty : event_type) (st : state) : state :=
  {| syscalls := syscalls st; ring_ref := ring_ref st; events := events st;
     invalidations := invalidations st;
     discarded_stats := S (discarded_stats st);
     resolver_calls := resolver_calls st;
     pushes := pushes st; pops := pops st |}.

Definition invalidate_inode (mount_id ino : Z) (send_invalidate_event : bool)
  (st : state) : state :=
  {| syscalls := syscalls st; ring_ref := ring_ref st; events := events st;
     invalidations :=
       invalidations st ++ [(mount_id, ino, send_invalidate_event)];
     discarded_stats := discarded_stats st;
     resolver_calls := resolver_calls st;
     pushes := pushes st; pops := pops st |}.

Definition send_event (ev : link_event_t) (st : state) : state :=
  {| syscalls := syscalls st; ring_ref := ring_ref st;
     events := events st ++ [ev];
     invalidations := invalidations st;
     discarded_stats := discarded_stats st;
     resolver_calls := resolver_calls st;
     pushes := pushes st; pops := pops st |}.

Definition fill_path_ring_buffer_ref (st : state) : Z := ring_ref st.

(** ** The hooks of [link.h] *)

(** The entry [trace__sys_link] initialises: the three fields it names, the
    rest zero. *)
Definition new_syscall (policy : policy_t) (async : async_t) :
  syscall_cache_t :=
  {| sc_type := EVENT_LINK; sc_policy := policy; sc_async := async;
     sc_discarded := false; sc_resolver := zero_resolver;
     sc_link := zero_link |}.

Definition trace__sys_link (K : kernel) (async : async_t) (st : state) :
  state :=
  let policy := fetch_policy K EVENT_LINK in
  if is_discarded_by_process K (policy_mode_of policy) EVENT_LINK then st
  else
    let syscall := new_syscall policy async in
    cache_syscall syscall st.

(** [SYSCALL_KPROBE0(link)] and [SYSCALL_KPROBE0(linkat)]. *)
Definition kprobe_link (K : kernel) (st : state) : state :=
  trace__sys_link K SYNC_SYSCALL st.

Definition kprobe_linkat (K : kernel) (st : state) : state :=
  trace__sys_link K SYNC_SYSCALL st.

Definition kprobe_do_linkat (K : kernel) (ctx : pt_regs) (st : state) :
  state :=
  match peek_syscall EVENT_LINK st with
  | None => trace__sys_link K ASYNC_SYSCALL st
  | Some _ => st
  end.

Definition kprobe_dr_link_src_callback (K : kernel) (ctx : pt_regs)
  (st : state) : state :=
  match peek_syscall EVENT_LINK st with
  | None => st
  | Some syscall =>
      let link := sc_link syscall in
      let syscall :=
        set_sc_link
          (set_l_src_file
             (set_f_path_ref (fill_path_ring_buffer_ref st) (l_src_file link))
             link)
          syscall in
      let st := set_syscalls (Some syscall) st in
      if r_ret (sc_resolver syscall) =? DENTRY_DISCARDED K then
        mark_as_discarded syscall (monitor_discarded EVENT_LINK st)
      else st
  end.

(** The record [dr_link_dst_callback] initialises (lines 182-189) with the
    contexts and the target's path reference filled in (lines 191-194). *)
Definition link_event_of (K : kernel) (h : helpers_t) (retval : Z)
  (syscall : syscall_cache_t) (target_ref : Z) : link_event_t :=
  {| ev_type := EVENT_LINK;
     ev_timestamp := bpf_ktime_get_ns h;
     ev_flags :=
       if async_truth (sc_async syscall) then EVENT_FLAGS_ASYNC K else 0;
     ev_retval := retval;
     ev_process := fill_process_context K;
     ev_container := fill_container_context K;
     ev_span := fill_span_context K;
     ev_source := l_src_file (sc_link syscall);
     ev_target := set_f_path_ref target_ref (l_target_file (sc_link syscall)) |}.

Definition dr_link_dst_callback (K : kernel) (h : helpers_t) (retval : Z)
  (st : state) : state :=
  match pop_syscall EVENT_LINK st with
  | (None, st) => st
  | (Some syscall, st) =>
      if IS_UNHANDLED_ERROR K retval then st
      else
        let event :=
          link_event_of K h retval syscall (fill_path_ring_buffer_ref st) in
        send_event event st
  end.

Definition kprobe_dr_link_dst_callback (K : kernel) (h : helpers_t)
  (ctx : pt_regs) (st : state) : state :=
  let ret := int32 (PT_REGS_RC ctx) in
  dr_link_dst_callback K h ret st.

Definition tracepoint_dr_link_dst_callback (K : kernel) (h : helpers_t)
  (args : tracepoint_raw_syscalls_sys_exit_t) (st : state) : state :=
  dr_link_dst_callback K h (int32 (tp_ret args)) st.

(** Modelled from the spec: the resolver's callback table
    ([helpers/path_resolver.h], not among the sources). The callback id
    selects the handler among the programs of the caller's kind; there is
    no tracepoint program for the source callback. *)
Definition dr_callback (K : kernel) (h : helpers_t) (dr : dr_type) :
  ctx_of dr -> callback_id -> state -> state :=
  match dr return ctx_of dr -> callback_id -> state -> state with
  | DR_KPROBE => fun ctx cb st =>
      match cb with
      | PR_PROGKEY_CB_LINK_SRC_KPROBE => kprobe_dr_link_src_callback K ctx st
      | PR_PROGKEY_CB_LINK_DST => kprobe_dr_link_dst_callback K h ctx st
      | PR_PROGKEY_CB_UNSET => st
      end
  | DR_TRACEPOINT => fun args cb st =>
      match cb with
      | PR_PROGKEY_CB_LINK_DST => tracepoint_dr_link_dst_callback K h args st
      | _ => st
      end
  end.

Definition count_resolver_call (st : state) : state :=
  {| syscalls := syscalls st; ring_ref := ring_ref st; events := events st;
     invalidations := invalidations st;
     discarded_stats := discarded_stats st;
     resolver_calls := S (resolver_calls st);
     pushes := pushes st; pops := pops st |}.

(** Modelled from the spec: [resolve_path] ([helpers/path_resolver.h], not
    among the sources), with the outcome the invocation's helpers give it.
    The boolean tells whether the tail call was taken. [false]: it was not
    issued and the caller goes on. [true]: the caller is over; the chain
    stored its return code and its ring buffer reference and ran the
    completion handler, which left the state returned. The other fields of
    the continuation record belong to the chain; the hooks set them anew
    before each use and never read them back. *)
Definition resolve_path (K : kernel) (h : helpers_t) (dr : dr_type)
  (ctx : ctx_of dr) (st : state) : bool * state :=
  let st := count_resolver_call st in
  match path_resolution h with
  | TailCallFailed => (false, st)
  | Completed ret ref =>
      match peek_syscall EVENT_LINK st with
      | None => (true, st)
      | Some syscall =>
          let syscall :=
            set_sc_resolver (set_r_ret ret (sc_resolver syscall)) syscall in
          let st := set_ring_ref ref (set_syscalls (Some syscall) st) in
          (true, dr_callback K h dr ctx (r_callback (sc_resolver syscall)) st)
      end
  end.

(** Lines 56-70 of [kprobe_vfs_link]: the dentries and the source key are
    written into the cached entry before the approvers see it. *)
Definition vfs_link_capture (K : kernel) (ctx : pt_regs)
  (syscall : syscall_cache_t) : syscall_cache_t :=
  let src_dentry := PT_REGS_PARM1 ctx in
  let link := set_l_src_dentry src_dentry (sc_link syscall) in
  let link := set_l_target_dentry (PT_REGS_PARM3 ctx) link in
  (* position 4: the [bpf_probe_read] of the field onto itself changes
     nothing, then the fourth argument replaces the third *)
  let link :=
    match get_vfs_link_target_dentry_position K with
    | VFS_ARG_POSITION4 => set_l_target_dentry (PT_REGS_PARM4 ctx) link
    | VFS_ARG_POSITION3 => link
    end in
  let src_file :=
    set_f_path_key
      (set_pk_mount_id (get_path_mount_id K (l_target_path link))
         (f_path_key (l_src_file link)))
      (l_src_file link) in
  let src_file := set_file_inode K src_dentry src_file 0 in
  set_sc_link (set_l_src_file src_file link) syscall.

(** Lines 76-91 of [kprobe_vfs_link]: the target record and the
    continuation record for the source path. *)
Definition vfs_link_prepare (K : kernel) (h : helpers_t)
  (syscall : syscall_cache_t) : syscall_cache_t :=
  let link := sc_link syscall in
  let src_dentry := l_src_dentry link in
  let src_file :=
    set_f_metadata (fill_file_metadata K src_dentry) (l_src_file link) in
  let target_file := set_f_metadata (f_metadata src_file) (l_target_file link) in
  let target_key :=
    set_pk_ino
      (u64 (Z.lor (Z.shiftl (FAKE_INODE_MSW K) 32)
              (u32 (bpf_get_prandom_u32 h))))
      (f_path_key target_file) in
  let target_key :=
    set_pk_mount_id (pk_mount_id (f_path_key src_file)) target_key in
  let target_file := set_f_path_key target_key target_file in
  let target_file :=
    if is_overlayfs K src_dentry
    then set_f_flags (Z.lor (f_flags target_file) (UPPER_LAYER K)) target_file
    else target_file in
  let link := set_l_target_file target_file (set_l_src_file src_file link) in
  let resolver :=
    {| r_dentry := src_dentry;
       r_key := f_path_key src_file;
       r_discarder_type :=
         match policy_mode_of (sc_policy syscall) with
         | NO_FILTER => None
         | _ => Some EVENT_LINK
         end;
       r_callback := PR_PROGKEY_CB_LINK_SRC_KPROBE;
       r_iteration := 0;
       r_ret := 0 |} in
  set_sc_resolver resolver (set_sc_link link syscall).

Definition kprobe_vfs_link (K : kernel) (h : helpers_t) (ctx : pt_regs)
  (st : state) : state :=
  match peek_syscall EVENT_LINK st with
  | None => st
  | Some syscall =>
      if negb (l_target_dentry (sc_link syscall) =? 0) then st
      else
        let syscall := vfs_link_capture K ctx syscall in
        let st := set_syscalls (Some syscall) st in
        if filter_syscall K syscall then mark_as_discarded syscall st
        else
          let syscall := vfs_link_prepare K h syscall in
          let st := set_syscalls (Some syscall) st in
          (* a tail call: [return 0] follows whether or not it is taken *)
          snd (resolve_path K h DR_KPROBE ctx st)
  end.

Definition sys_link_ret (K : kernel) (h : helpers_t) (dr : dr_type)
  (ctx : ctx_of dr) (retval : Z) (st : state) : state :=
  if IS_UNHANDLED_ERROR K retval then st
  else
    match peek_syscall EVENT_LINK st with
    | None => st
    | Some syscall =>
        let pass_to_userspace :=
          negb (sc_discarded syscall) && is_event_enabled K EVENT_LINK in
        let src_key := f_path_key (l_src_file (sc_link syscall)) in
        let st :=
          if 0 <=? retval
          then invalidate_inode (pk_mount_id src_key) (pk_ino src_key)
                 (negb pass_to_userspace) st
          else st in
        if pass_to_userspace then
          let resolver :=
            {| r_dentry := l_target_dentry (sc_link syscall);
               r_key := f_path_key (l_target_file (sc_link syscall));
               r_discarder_type := None;
               r_callback := PR_PROGKEY_CB_LINK_DST;
               r_iteration := 0;
               r_ret := 0 |} in
          let st := set_syscalls (Some (set_sc_resolver resolver syscall)) st in
          match resolve_path K h dr ctx st with
          | (true, st) => st
          | (false, st) =>
              (* if the tail call fails, we need to pop the syscall cache
                 entry *)
              snd (pop_syscall EVENT_LINK st)
          end
        else snd (pop_syscall EVENT_LINK st)
    end.

Definition kretprobe_do_linkat (K : kernel) (h : helpers_t) (ctx : pt_regs)
  (st : state) : state :=
  let retval := int32 (PT_REGS_RC ctx) in
  sys_link_ret K h DR_KPROBE ctx retval st.

Definition kprobe_sys_link_ret (K : kernel) (h : helpers_t) (ctx : pt_regs)
  (st : state) : state :=
  let retval := int32 (PT_REGS_RC ctx) in
  sys_link_ret K h DR_KPROBE ctx retval st.

(** [SYSCALL_KRETPROBE(link)] and [SYSCALL_KRETPROBE(linkat)]. *)
Definition kretprobe_link (K : kernel) (h : helpers_t) (ctx : pt_regs)
  (st : state) : state := kprobe_sys_link_ret K h ctx st.

Definition kretprobe_linkat (K : kernel) (h : helpers_t) (ctx : pt_regs)
  (st : state) : state := kprobe_sys_link_ret K h ctx st.

Definition tracepoint_handle_sys_link_exit (K : kernel) (h : helpers_t)
  (args : tracepoint_raw_syscalls_sys_exit_t) (st : state) : state :=
  sys_link_ret K h DR_TRACEPOINT args (int32 (tp_ret args)) st.

(** ** Probe sequences

    One firing of a probe of [link.h] on the thread, with its context and
    with what the kernel's helpers return during it. *)
Inductive probe :=
  | Kprobe_link
  | Kprobe_linkat
  | Kprobe_do_linkat (ctx : pt_regs)
  | Kprobe_vfs_link (ctx : pt_regs) (h : helpers_t)
  | Kretprobe_do_linkat (ctx : pt_regs) (h : helpers_t)
  | Kretprobe_link (ctx : pt_regs) (h : helpers_t)
  | Kretprobe_linkat (ctx : pt_regs) (h : helpers_t)
  | Tracepoint_handle_sys_link_exit
      (args : tracepoint_raw_syscalls_sys_exit_t) (h : helpers_t).

Definition fire (K : kernel) (p : probe) (st : state) : state :=
  match p with
  | Kprobe_link => kprobe_link K st
  | Kprobe_linkat => kprobe_linkat K st
  | Kprobe_do_linkat ctx => kprobe_do_linkat K ctx st
  | Kprobe_vfs_link ctx h => kprobe_vfs_link K h ctx st
  | Kretprobe_do_linkat ctx h => kretprobe_do_linkat K h ctx st
  | Kretprobe_link ctx h => kretprobe_link K h ctx st
  | Kretprobe_linkat ctx h => kretprobe_linkat K h ctx st
  | Tracepoint_handle_sys_link_exit args h =>
      tracepoint_handle_sys_link_exit K h args st
  end.

Fixpoint run (K : kernel) (ps : list probe) (st : state) : state :=
  match ps with
  | [] => st
  | p :: ps => run K ps (fire K p st)
  end.

(** The probes one [link(2)] call fires on its thread, in order: the
    system-call entry, [do_linkat], [vfs_link], the return of [do_linkat]
    and the system-call return. Both returns see the call's return value. *)
Definition link_instance (entry_ctx vfs_ctx ret_ctx : pt_regs)
  (h_vfs h_ret h_ret' : helpers_t) : list probe :=
  [ Kprobe_link;
    Kprobe_do_linkat entry_ctx;
    Kprobe_vfs_link vfs_ctx h_vfs;
    Kretprobe_do_linkat ret_ctx h_ret;
    Kretprobe_link ret_ctx h_ret' ].

(** ** Closed forms used to state what an instance leaves behind *)

(** The return value a completion handler reads back from its context. *)
Definition ctx_retval (dr : dr_type) : ctx_of dr -> Z :=
  match dr with
  | DR_KPROBE => fun ctx => int32 (PT_REGS_RC ctx)
  | DR_TRACEPOINT => fun args => int32 (tp_ret args)
  end.

(** The entry once the source path is resolved: the chain's return code,
    then what [kprobe_dr_link_src_callback] writes. *)
Definition src_resolved (K : kernel) (ret ref : Z) (sc : syscall_cache_t) :
  syscall_cache_t :=
  let sc := set_sc_resolver (set_r_ret ret (sc_resolver sc)) sc in
  let sc :=
    set_sc_link
      (set_l_src_file (set_f_path_ref ref (l_src_file (sc_link sc)))
         (sc_link sc)) sc in
  if ret =? DENTRY_DISCARDED K then set_sc_discarded true sc else sc.

(** Whether the resolver chain ran to its completion handler, whether it
    ended on [DENTRY_DISCARDED], and the ring buffer reference it left. *)
Definition completed (h : helpers_t) : bool :=
  match path_resolution h with
  | Completed _ _ => true
  | TailCallFailed => false
  end.

Definition resolver_discards (K : kernel) (h : helpers_t) : bool :=
  match path_resolution h with
  | Completed ret _ => ret =? DENTRY_DISCARDED K
  | TailCallFailed => false
  end.

Definition resolver_ref (h : helpers_t) (before : Z) : Z :=
  match path_resolution h with
  | Completed _ ref => ref
  | TailCallFailed => before
  end.

(** The entry [kprobe_vfs_link] leaves in the cache when it finds [sc]
    there with no target dentry yet. *)
Definition entry_after_vfs_link (K : kernel) (h : helpers_t) (ctx : pt_regs)
  (sc : syscall_cache_t) : syscall_cache_t :=
  let captured := vfs_link_capture K ctx sc in
  if filter_syscall K captured then set_sc_discarded true captured
  else
    let prepared := vfs_link_prepare K h captured in
    match path_resolution h with
    | TailCallFailed => prepared
    | Completed ret ref => src_resolved K ret ref prepared
    end.

(** The probes of an instance up to [vfs_link]. *)
Definition link_prefix (entry_ctx vfs_ctx : pt_regs) (h_vfs : helpers_t) :
  list probe :=
  [ Kprobe_link; Kprobe_do_linkat entry_ctx; Kprobe_vfs_link vfs_ctx h_vfs ].

(** ** Accounting of pushes, pops and events *)

Definition pending (st : state) : nat :=
  match syscalls st with Some _ => 1 | None => 0 end.

(** [st'] comes after [st]: every entry popped or still pending was pushed,
    and every event emitted came with a pop. *)
Definition accounted (st st' : state) : Prop :=
  (pushes st' + pops st + pending st
   = pushes st + pops st' + pending st')%nat
  /\ (pops st <= pops st')%nat
  /\ (length (events st') + pops st <= length (events st) + pops st')%nat.

(** ** An instance entered below the system-call boundary

    [do_linkat] reached without a system-call probe before it (the call was
    issued on behalf of the thread, not through [link(2)]): [kprobe_do_linkat]
    makes the entry, [kretprobe_do_linkat] ends the instance. *)
Definition do_linkat_prefix (entry_ctx vfs_ctx : pt_regs)
  (h_vfs : helpers_t) : list probe :=
  [ Kprobe_do_linkat entry_ctx; Kprobe_vfs_link vfs_ctx h_vfs ].

Definition do_linkat_instance (entry_ctx vfs_ctx ret_ctx : pt_regs)
  (h_vfs h_ret : helpers_t) : list probe :=
  [ Kprobe_do_linkat entry_ctx;
    Kprobe_vfs_link vfs_ctx h_vfs;
    Kretprobe_do_linkat ret_ctx h_ret ].

(** The target dentry [kprobe_vfs_link] reads from its registers. *)
Definition vfs_link_target_dentry (K : kernel) (ctx : pt_regs) : dentry_ptr :=
  match get_vfs_link_target_dentry_position K with
  | VFS_ARG_POSITION4 => PT_REGS_PARM4 ctx
  | VFS_ARG_POSITION3 => PT_REGS_PARM3 ctx
  end.

(** A thread is quiet when nothing is pending on it, or the pending entry is
    flagged as discarded. *)
Definition quiet (st : state) : Prop :=
  match syscalls st with
  | None => True
  | Some sc => sc_discarded sc = true
  end.

(** ** A concrete kernel

    Used to run the hooks on explicit inputs. The process-level policy
    discards the process when [process_discarded] is set; the approvers
    match the inodes listed in
    [deny_listed]; [IS_UNHANDLED_ERROR] is a failure other than [-EACCES]
    (-13) and [-EPERM] (-1); the inode of a dentry is read from the table
    [dentry_ino]. *)
Definition test_kernel (process_discarded : bool) (mode : policy_mode)
  (enabled : bool) (dentry_ino : Z -> Z) (deny_listed : list Z) : kernel :=
  {| fetch_policy := fun _ => {| policy_mode_of := mode; policy_flags := 0 |};
     is_discarded_by_process := fun _ _ => process_discarded;
     link_approvers := fun sc =>
       existsb (Z.eqb (pk_ino (f_path_key (l_src_file (sc_link sc)))))
         deny_listed;
     is_event_enabled := fun _ => enabled;
     get_vfs_link_target_dentry_position := VFS_ARG_POSITION3;
     get_path_mount_id := fun _ => 27;
     set_file_inode := fun d f _ =>
       set_f_path_key (set_pk_ino (dentry_ino d) (f_path_key f)) f;
     fill_file_metadata := fun d =>
       {| metadata_words := [33188; 1000; 1000; dentry_ino d] |};
     is_overlayfs := fun _ => false;
     IS_UNHANDLED_ERROR := fun retval =>
       (retval <? 0) && negb (retval =? -13) && negb (retval =? -1);
     fill_process_context := 4242;
     fill_container_context := 0;
     fill_span_context := 0;
     FAKE_INODE_MSW := 3735928833;   (* 0xdeadc001 *)
     UPPER_LAYER := 2;
     EVENT_FLAGS_ASYNC := 1;
     DENTRY_DISCARDED := -2 |}.

(** A thread with nothing pending. *)
Definition idle : state :=
  {| syscalls := None; ring_ref := 0; events := []; invalidations := [];
     discarded_stats := 0; resolver_calls := 0; pushes := 0; pops := 0 |}.

(** Contexts of the probes of [link("/a/b/c", "/a/d")]: [vfs_link] is
    entered with the source dentry [src] and the target dentry [dst]; the
    call returns [rc]. *)
Definition regs_vfs_link (src dst : Z) : pt_regs :=
  {| PT_REGS_PARM1 := src; PT_REGS_PARM3 := dst; PT_REGS_PARM4 := 0;
     PT_REGS_RC := 0 |}.

Definition regs_return (rc : Z) : pt_regs :=
  {| PT_REGS_PARM1 := 0; PT_REGS_PARM3 := 0; PT_REGS_PARM4 := 0;
     PT_REGS_RC := rc |}.

Definition helpers (rnd ts : Z) (o : resolve_outcome) : helpers_t :=
  {| bpf_get_prandom_u32 := rnd; bpf_ktime_get_ns := ts;
     path_resolution := o |}.


End Link.

(** * The segmented path resolver *)

Module PathResolver.

Local Open Scope nat_scope.

(** Modelled from the spec: the segmented path resolver
    ([helpers/path_resolver.h] is not among the sources). Section 4.3 of the
    specification: the resolver walks the ancestors of a directory entry
    towards the root and appends each component to the path ring buffer,
    until it reaches the root or an ancestor the directory-resolution cache
    already holds; with a discarder type set, a step may discard the path;
    an entry that cannot be read is an error. *)
Inductive status := RESOLVING | DONE | DISCARDED | ERROR.

(** A directory entry as read through the fallible "read remote object"
    capability: its name and the handle of its parent. The root is its own
    parent. *)
Record dentry_t := {
  d_name : string;
  d_parent : Z
}.

(** What the walk reads on the host: the directory entries that can be read,
    the entries the directory-resolution cache already holds, and the
    early-discard predicate on the path accumulated so far. *)
Record host := {
  dentries : gmap Z dentry_t;
  resolved : gset Z;
  discarder : list string -> bool
}.

(** Modelled from the spec: the continuation record handed from one
    invocation to the next (current directory entry, iteration count,
    discarder type, callback id, components accumulated in the ring
    buffer), with the state of the walk. *)
Record ResolverState := {
  rs_dentry : Z;
  rs_discarder_type : bool;
  rs_callback : nat;
  rs_iteration : nat;
  rs_components : list string;
  rs_status : status
}.

Definition is_resolving (s : ResolverState) : bool :=
  match rs_status s with RESOLVING => true | _ => false end.

Definition with_walk (d : Z) (cs : list string) (st : status)
  (s : ResolverState) : ResolverState :=
  {| rs_dentry := d; rs_discarder_type := rs_discarder_type s;
     rs_callback := rs_callback s; rs_iteration := rs_iteration s;
     rs_components := cs; rs_status := st |}.

Definition next_iteration (s : ResolverState) : ResolverState :=
  {| rs_dentry := rs_dentry s; rs_discarder_type := rs_discarder_type s;
     rs_callback := rs_callback s; rs_iteration := S (rs_iteration s);
     rs_components := rs_components s; rs_status := rs_status s |}.

(** Modelled from the spec: one step of the walk, on one component. *)
Definition step (E : host) (s : ResolverState) : ResolverState :=
  match dentries E !! rs_dentry s with
  | None => with_walk (rs_dentry s) (rs_components s) ERROR s
  | Some d =>
      let cs := rs_components s ++ [d_name d] in
      if rs_discarder_type s && discarder E cs
      then with_walk (rs_dentry s) cs DISCARDED s
      else if (d_parent d =? rs_dentry s)%Z
      then with_walk (rs_dentry s) cs DONE s
      else if bool_decide (d_parent d ∈ resolved E)
      then with_walk (d_parent d) cs DONE s
      else with_walk (d_parent d) cs RESOLVING s
  end.

(** Modelled from the spec: a walk of at most [budget] steps, which stops
    at a terminal state. With the host's bounded-execution ceiling as
    budget this is one invocation of the resolver; with a budget the walk
    never exhausts it is the unbounded single pass. *)
Fixpoint walk (E : host) (budget : nat) (s : ResolverState) :
  ResolverState :=
  match budget with
  | 0 => s
  | S budget =>
      if is_resolving s then walk E budget (step E s) else s
  end.

(** The number of components a walk of at most [budget] steps processes. *)
Fixpoint steps (E : host) (budget : nat) (s : ResolverState) : nat :=
  match budget with
  | 0 => 0
  | S budget =>
      if is_resolving s then S (steps E budget (step E s)) else 0
  end.

(** Modelled from the spec: the chain of invocations. Each invocation
    counts itself in the continuation record and walks at most [B]
    components; while the walk is incomplete the record is handed to the
    next invocation. [n] bounds the number of invocations. *)
Fixpoint resolve (E : host) (B n : nat) (s : ResolverState) :
  ResolverState :=
  match n with
  | 0 => s
  | S n =>
      if is_resolving s
      then resolve E B n (walk E B (next_iteration s))
      else s
  end.

(** The record a hook hands to the resolver: iteration 0, nothing
    accumulated. *)
Definition start (d : Z) (discarder_type : bool) (callback : nat) :
  ResolverState :=
  {| rs_dentry := d; rs_discarder_type := discarder_type;
     rs_callback := callback; rs_iteration := 0; rs_components := [];
     rs_status := RESOLVING |}.

Definition ceil_div (D B : nat) : nat := (D + B - 1) / B.

(** Modelled from the spec: the unbounded single-pass ancestor walk with
    no discarder and no resolution cache, as a plain recursion over the
    parents: the names from the starting entry up to the root. [None] when
    an entry cannot be read or the recursion bound is exhausted. *)
Fixpoint ancestors (E : host) (bound : nat) (d : Z) : option (list string) :=
  match bound with
  | 0 => None
  | S bound =>
      match dentries E !! d with
      | None => None
      | Some de =>
          if (d_parent de =? d)%Z then Some [d_name de]
          else cons (d_name de) <$> ancestors E bound (d_parent de)
      end
  end.

(** A directory five components deep, [/a/b/c/d], the root being entry 1. *)
Definition deep_host : host :=
  {| dentries :=
       list_to_map
         [ (1%Z, {| d_name := "/"; d_parent := 1 |});
           (2%Z, {| d_name := "a"; d_parent := 1 |});
           (3%Z, {| d_name := "b"; d_parent := 2 |});
           (4%Z, {| d_name := "c"; d_parent := 3 |});
           (5%Z, {| d_name := "d"; d_parent := 4 |}) ];
     resolved := ∅;
     discarder := fun _ => false |}.

End PathResolver.

(** * Capture into the HTTP fragment buffer *)

Module HttpBuffer.

(** Memory from the address [buffer] onwards: the [HTTP_BUFFER_SIZE] bytes
    of the fragment buffer, then whatever follows it. *)
Abbreviation memory := (list byte).

(** [n] bytes written from the start of [mem], byte [i] being [f i]; a
    write does not go past the memory modelled. *)
Definition write_bytes (mem : memory) (n : Z) (f : nat -> byte) : memory :=
  imap (fun i b => if Z.of_nat i <? n then f i else b) mem.

Definition bpf_memset (mem : memory) (c : byte) (n : Z) : memory :=
  write_bytes mem n (fun _ => c).

Definition EFAULT : Z := 14.

(** The kernel's [bpf_probe_read_user(dst, size, src)]: [size] bytes of user
    memory are copied to [dst]; when they cannot all be read, [size] bytes
    of [dst] are zeroed and the helper fails. [src] lists the bytes that
    can be read at the user address. *)
Definition bpf_probe_read_user (mem : memory) (size : Z) (src : list byte) :
  Z * memory :=
  if size <=? Z.of_nat (length src)
  then (0, write_bytes mem size (fun i => nth i src x00))
  else (- EFAULT, write_bytes mem size (fun _ => x00)).

(** [bpf_probe_read_user_with_telemetry] ([bpf_telemetry.h], not among the
    sources): the helper's result, a failure being counted in the telemetry
    map. *)
Definition bpf_probe_read_user_with_telemetry (errors : nat) (mem : memory)
  (size : Z) (src : list byte) : Z * (memory * nat) :=
  let (ret, mem) := bpf_probe_read_user mem size src in
  (ret, (mem, if ret <? 0 then S errors else errors)).

Section Buffer.

(** [HTTP_BUFFER_SIZE] is defined in [protocols/http/types.h], which is not
    among the sources. *)
Variable HTTP_BUFFER_SIZE : Z.

(** [final_size], a [u32]: the smaller of [data_size] and the buffer size. *)
Definition final_size (data_size : Z) : Z :=
  u32 (if data_size <? HTTP_BUFFER_SIZE then data_size else HTTP_BUFFER_SIZE).

(** The size [read_into_buffer] asks the helper for: [final_size - 1] in
    32-bit unsigned arithmetic. *)
Definition read_size (data_size : Z) : Z := u32 (final_size data_size - 1).

Definition read_into_buffer (errors : nat) (buffer : memory)
  (data : list byte) (data_size : Z) : memory * nat :=
  let buffer := bpf_memset buffer x00 HTTP_BUFFER_SIZE in
  let final_size := final_size data_size in
  snd (bpf_probe_read_user_with_telemetry errors buffer
         (u32 (final_size - 1)) data).

End Buffer.

(** [bpf_probe_read_user(&buffer[i], 1, &data[i])]: one byte, at offset [i]
    of both the buffer and the user memory. *)
Definition read_byte_at (buffer : memory) (data : list byte) (i : nat) :
  memory :=
  take i buffer
  ++ snd (bpf_probe_read_user (drop i buffer) 1 (drop i data)).

(** The unrolled loop of [read_into_buffer_classification], from index [i]
    with [count] iterations left; [return] on a zero byte. *)
Fixpoint classification_loop (count i : nat) (buffer : memory)
  (data : list byte) : memory :=
  match count with
  | O => buffer
  | S count =>
      let buffer := read_byte_at buffer data i in
      if Byte.eqb (nth i buffer x00) x00 then buffer
      else classification_loop count (S i) buffer data
  end.

Section Classification.

(** [CLASSIFICATION_MAX_BUFFER] is defined in a header that is not among
    the sources. *)
Variable CLASSIFICATION_MAX_BUFFER : Z.

Definition read_into_buffer_classification (errors : nat) (buffer : memory)
  (data : list byte) (data_size : Z) : memory * nat :=
  let buffer := bpf_memset buffer x00 CLASSIFICATION_MAX_BUFFER in
  let (ret, result) :=
    bpf_probe_read_user_with_telemetry errors buffer
      (u32 (CLASSIFICATION_MAX_BUFFER - 1)) data in
  if ret <? 0 then
    (classification_loop (Z.to_nat (CLASSIFICATION_MAX_BUFFER - 1)) 0
       (fst result) data,
     snd result)
  else result.

End Classification.

(** The length of the C string at the start of [l], at most [count]: the
    bytes in front of the first zero byte or of the end of [l]. *)
Fixpoint cstr_len (count : nat) (l : list byte) : nat :=
  match count, l with
  | S count, b :: l =>
      if Byte.eqb b x00 then O else S (cstr_len count l)
  | _, _ => O
  end.

End HttpBuffer.

(** * Properties of the link monitor *)

Module LinkSpec.
Import Link.

Arguments vfs_link_capture : simpl never.
Arguments vfs_link_prepare : simpl never.
Arguments filter_syscall : simpl never.

(** ** What each probe does, case by case *)

Section Steps.

Variable K : kernel.

Lemma trace__sys_link_discarded async st :
  is_discarded_by_process K (policy_mode_of (fetch_policy K EVENT_LINK))
    EVENT_LINK = true ->
  trace__sys_link K async st = st.
Proof. intros Hd. unfold trace__sys_link. rewrite Hd. reflexivity. Qed.

Lemma trace__sys_link_push async st :
  is_discarded_by_process K (policy_mode_of (fetch_policy K EVENT_LINK))
    EVENT_LINK = false ->
  trace__sys_link K async st
  = cache_syscall (new_syscall (fetch_policy K EVENT_LINK) async) st.
Proof. intros Hk. unfold trace__sys_link. rewrite Hk. reflexivity. Qed.

Lemma kprobe_do_linkat_pending ctx st sc :
  syscalls st = Some sc -> kprobe_do_linkat K ctx st = st.
Proof.
  intros Hs. unfold kprobe_do_linkat, peek_syscall. rewrite Hs. reflexivity.
Qed.

Lemma kprobe_vfs_link_idle h ctx st :
  syscalls st = None -> kprobe_vfs_link K h ctx st = st.
Proof.
  intros Hs. unfold kprobe_vfs_link, peek_syscall. rewrite Hs. reflexivity.
Qed.

Lemma kprobe_vfs_link_null_target h ctx st sc :
  syscalls st = Some sc ->
  l_target_dentry (sc_link sc) = 0 ->
  let discarded_by_filter := filter_syscall K (vfs_link_capture K ctx sc) in
  kprobe_vfs_link K h ctx st
  = {| syscalls := Some (entry_after_vfs_link K h ctx sc);
       ring_ref :=
         if discarded_by_filter then ring_ref st
         else resolver_ref h (ring_ref st);
       events := events st;
       invalidations := invalidations st;
       discarded_stats :=
         if negb discarded_by_filter && resolver_discards K h
         then S (discarded_stats st) else discarded_stats st;
       resolver_calls :=
         if discarded_by_filter then resolver_calls st
         else S (resolver_calls st);
       pushes := pushes st;
       pops := pops st |}.
Proof.
  intros Hs Ht byf. subst byf.
  unfold kprobe_vfs_link, peek_syscall, entry_after_vfs_link.
  rewrite Hs, Ht. cbn [Z.eqb negb].
  destruct st as [sys ring evs inv ds rc pu po]. simpl in Hs. subst sys.
  destruct (filter_syscall K (vfs_link_capture K ctx sc)); [reflexivity|].
  unfold resolve_path, resolver_ref, resolver_discards, src_resolved.
  destruct (path_resolution h) as [|ret ref]; [reflexivity|].
  cbn -[vfs_link_prepare vfs_link_capture Z.eqb].
  destruct (ret =? DENTRY_DISCARDED K); reflexivity.
Qed.

Lemma sys_link_ret_unhandled h dr ctx retval st :
  IS_UNHANDLED_ERROR K retval = true ->
  sys_link_ret K h dr ctx retval st = st.
Proof. intros Hu. unfold sys_link_ret. rewrite Hu. reflexivity. Qed.

Lemma sys_link_ret_idle h dr ctx retval st :
  syscalls st = None -> sys_link_ret K h dr ctx retval st = st.
Proof.
  intros Hs. unfold sys_link_ret, peek_syscall. rewrite Hs.
  destruct (IS_UNHANDLED_ERROR K retval); reflexivity.
Qed.

Lemma sys_link_ret_pending h dr ctx retval st sc :
  syscalls st = Some sc ->
  IS_UNHANDLED_ERROR K retval = false ->
  ctx_retval dr ctx = retval ->
  let pass_to_userspace :=
    negb (sc_discarded sc) && is_event_enabled K EVENT_LINK in
  let src_key := f_path_key (l_src_file (sc_link sc)) in
  sys_link_ret K h dr ctx retval st
  = {| syscalls := None;
       ring_ref :=
         if pass_to_userspace then resolver_ref h (ring_ref st)
         else ring_ref st;
       events :=
         events st ++
         (if pass_to_userspace && completed h
          then [link_event_of K h retval sc (resolver_ref h (ring_ref st))]
          else []);
       invalidations :=
         invalidations st ++
         (if 0 <=? retval
          then [(pk_mount_id src_key, pk_ino src_key,
                 negb pass_to_userspace)]
          else []);
       discarded_stats := discarded_stats st;
       resolver_calls :=
         if pass_to_userspace then S (resolver_calls st)
         else resolver_calls st;
       pushes := pushes st;
       pops := S (pops st) |}.
Proof.
  intros Hs Hu Hc pass src_key.
  unfold sys_link_ret, peek_syscall. rewrite Hu, Hs. fold pass src_key.
  destruct st as [sys ring evs inv ds rc pu po]. simpl in Hs. subst sys.
  unfold resolve_path, resolver_ref, completed.
  destruct pass, (0 <=? retval), (path_resolution h) as [|ret ref];
    cbn [andb]; rewrite ?app_nil_r; try reflexivity;
    destruct dr; cbn in Hc |- *;
    unfold kprobe_dr_link_dst_callback, tracepoint_dr_link_dst_callback,
      dr_link_dst_callback; cbn -[int32];
    rewrite Hc, Hu; rewrite ?app_nil_r; reflexivity.
Qed.

(** *** What capture and preparation write *)

Lemma capture_src_dentry ctx sc :
  l_src_dentry (sc_link (vfs_link_capture K ctx sc)) = PT_REGS_PARM1 ctx.
Proof.
  unfold vfs_link_capture.
  destruct (get_vfs_link_target_dentry_position K); reflexivity.
Qed.

Lemma prepare_src_file h sc :
  l_src_file (sc_link (vfs_link_prepare K h sc))
  = set_f_metadata (fill_file_metadata K (l_src_dentry (sc_link sc)))
      (l_src_file (sc_link sc)).
Proof.
  unfold vfs_link_prepare.
  destruct (is_overlayfs K (l_src_dentry (sc_link sc))); reflexivity.
Qed.

Lemma prepare_target_key h sc :
  f_path_key (l_target_file (sc_link (vfs_link_prepare K h sc)))
  = {| pk_ino :=
         u64 (Z.lor (Z.shiftl (FAKE_INODE_MSW K) 32)
                (u32 (bpf_get_prandom_u32 h)));
       pk_mount_id := pk_mount_id (f_path_key (l_src_file (sc_link sc)));
       pk_path_id :=
         pk_path_id (f_path_key (l_target_file (sc_link sc))) |}.
Proof.
  unfold vfs_link_prepare.
  destruct (is_overlayfs K (l_src_dentry (sc_link sc))); reflexivity.
Qed.

Lemma prepare_target_metadata h sc :
  f_metadata (l_target_file (sc_link (vfs_link_prepare K h sc)))
  = fill_file_metadata K (l_src_dentry (sc_link sc)).
Proof.
  unfold vfs_link_prepare.
  destruct (is_overlayfs K (l_src_dentry (sc_link sc))); reflexivity.
Qed.


(** *** The entry [kprobe_vfs_link] leaves behind *)

Lemma entry_discarded h ctx sc :
  sc_discarded (entry_after_vfs_link K h ctx sc)
  = sc_discarded sc
    || filter_syscall K (vfs_link_capture K ctx sc)
    || resolver_discards K h.
Proof.
  unfold entry_after_vfs_link, resolver_discards, src_resolved.
  destruct (filter_syscall K (vfs_link_capture K ctx sc)).
  - cbn. rewrite orb_true_r. reflexivity.
  - destruct (path_resolution h) as [|ret ref].
    + cbn. rewrite !orb_false_r. reflexivity.
    + destruct (ret =? DENTRY_DISCARDED K); cbn;
        rewrite ?orb_true_r, ?orb_false_r; reflexivity.
Qed.

Lemma entry_async h ctx sc :
  sc_async (entry_after_vfs_link K h ctx sc) = sc_async sc.
Proof.
  unfold entry_after_vfs_link, src_resolved.
  destruct (filter_syscall K (vfs_link_capture K ctx sc)); [reflexivity|].
  destruct (path_resolution h) as [|ret ref]; [reflexivity|].
  destruct (ret =? DENTRY_DISCARDED K); reflexivity.
Qed.

Lemma entry_src_key h ctx sc :
  f_path_key (l_src_file (sc_link (entry_after_vfs_link K h ctx sc)))
  = f_path_key (l_src_file (sc_link (vfs_link_capture K ctx sc))).
Proof.
  unfold entry_after_vfs_link, src_resolved.
  destruct (filter_syscall K (vfs_link_capture K ctx sc)); [reflexivity|].
  destruct (path_resolution h) as [|ret ref]; [reflexivity|].
  destruct (ret =? DENTRY_DISCARDED K); reflexivity.
Qed.

Lemma entry_src_file h ctx sc :
  filter_syscall K (vfs_link_capture K ctx sc) = false ->
  let prepared := vfs_link_prepare K h (vfs_link_capture K ctx sc) in
  l_src_file (sc_link (entry_after_vfs_link K h ctx sc))
  = match path_resolution h with
    | TailCallFailed => l_src_file (sc_link prepared)
    | Completed _ ref => set_f_path_ref ref (l_src_file (sc_link prepared))
    end.
Proof.
  intros Hf prepared. unfold entry_after_vfs_link, src_resolved.
  rewrite Hf. fold prepared.
  destruct (path_resolution h) as [|ret ref]; [reflexivity|].
  destruct (ret =? DENTRY_DISCARDED K); reflexivity.
Qed.

Lemma entry_target_file h ctx sc :
  filter_syscall K (vfs_link_capture K ctx sc) = false ->
  l_target_file (sc_link (entry_after_vfs_link K h ctx sc))
  = l_target_file
      (sc_link (vfs_link_prepare K h (vfs_link_capture K ctx sc))).
Proof.
  intros Hf. unfold entry_after_vfs_link, src_resolved. rewrite Hf.
  destruct (path_resolution h) as [|ret ref]; [reflexivity|].
  destruct (ret =? DENTRY_DISCARDED K); reflexivity.
Qed.


End Steps.

(** ** Probes on a thread with no pending entry *)

Lemma fire_discarded_idle K p st :
  is_discarded_by_process K (policy_mode_of (fetch_policy K EVENT_LINK))
    EVENT_LINK = true ->
  syscalls st = None ->
  fire K p st = st.
Proof.
  intros Hd Hs. destruct p; cbn [fire].
  - apply trace__sys_link_discarded, Hd.
  - apply trace__sys_link_discarded, Hd.
  - unfold kprobe_do_linkat, peek_syscall. rewrite Hs.
    apply trace__sys_link_discarded, Hd.
  - apply kprobe_vfs_link_idle, Hs.
  - apply sys_link_ret_idle, Hs.
  - apply sys_link_ret_idle, Hs.
  - apply sys_link_ret_idle, Hs.
  - apply sys_link_ret_idle, Hs.
Qed.

(** With the process discarded and nothing pending, a run of probes leaves
    the state as it was. *)
Lemma run_discarded_idle K (ps : list probe) st :
  is_discarded_by_process K (policy_mode_of (fetch_policy K EVENT_LINK))
    EVENT_LINK = true ->
  syscalls st = None ->
  run K ps st = st.
Proof.
  intros Hd Hs. induction ps as [|p ps IH]; cbn [run]; [reflexivity|].
  rewrite (fire_discarded_idle K p st Hd Hs). exact IH.
Qed.

(** C3. An instance discarded at entry by the process-level policy: whatever
    probes fire afterwards, in whatever order and with whatever return
    value, no entry is put into the cache (the slot stays empty and the push
    counter does not move) and no event is emitted. *)
Theorem discarded_by_process_never_tracked K (ps : list probe) st :
  is_discarded_by_process K (policy_mode_of (fetch_policy K EVENT_LINK))
    EVENT_LINK = true ->
  syscalls st = None ->
  syscalls (run K ps st) = None
  /\ pushes (run K ps st) = pushes st
  /\ events (run K ps st) = events st.
Proof.
  intros Hd. revert st. induction ps as [|p ps IH]; intros st Hs.
  - cbn [run]. auto.
  - cbn [run]. rewrite (fire_discarded_idle K p st Hd Hs). apply IH, Hs.
Qed.

Lemma discarded_by_process_never_tracked_witness :
  let K := test_kernel true DENY_LIST true (fun d => d) [] in
  let ps :=
    link_instance (regs_return 0) (regs_vfs_link 1000 2000) (regs_return 0)
      (helpers 7 10 (Completed 3 64)) (helpers 0 20 (Completed 2 128))
      (helpers 0 30 TailCallFailed) in
  syscalls (run K ps idle) = None
  /\ pushes (run K ps idle) = pushes idle
  /\ events (run K ps idle) = events idle.
Proof.
  intros K ps.
  apply (discarded_by_process_never_tracked K ps idle); reflexivity.
Defined.

(** C10. When the cached entry already holds a target dentry, a further
    firing of [kprobe_vfs_link] returns at once: the whole state, and with
    it the entry (dentries, file records, continuation record) and the
    count of resolver dispatches, is what it was. *)
Theorem kprobe_vfs_link_idempotent K h ctx st syscall :
  peek_syscall EVENT_LINK st = Some syscall ->
  l_target_dentry (sc_link syscall) <> 0 ->
  kprobe_vfs_link K h ctx st = st
  /\ peek_syscall EVENT_LINK (kprobe_vfs_link K h ctx st) = Some syscall
  /\ resolver_calls (kprobe_vfs_link K h ctx st) = resolver_calls st.
Proof.
  intros Hp Hn.
  assert (E : kprobe_vfs_link K h ctx st = st).
  { unfold kprobe_vfs_link. rewrite Hp.
    destruct (Z.eqb_spec (l_target_dentry (sc_link syscall)) 0) as [e|_];
      [contradiction | reflexivity]. }
  rewrite E. auto.
Qed.

(** ** Counting pushes, pops and events over any sequence of probes *)

Lemma accounted_refl st : accounted st st.
Proof. unfold accounted. lia. Qed.

Lemma accounted_trans st1 st2 st3 :
  accounted st1 st2 -> accounted st2 st3 -> accounted st1 st3.
Proof. unfold accounted. lia. Qed.

Lemma trace__sys_link_accounted K async st :
  accounted st (trace__sys_link K async st).
Proof.
  unfold trace__sys_link.
  destruct (is_discarded_by_process K _ _); [apply accounted_refl|].
  unfold cache_syscall. destruct (syscalls st) eqn:Hs; [apply accounted_refl|].
  unfold accounted, pending. cbn. rewrite Hs. lia.
Qed.

Lemma kprobe_vfs_link_accounted K h ctx st :
  accounted st (kprobe_vfs_link K h ctx st).
Proof.
  destruct (syscalls st) as [sc|] eqn:Hs.
  - destruct (Z.eq_dec (l_target_dentry (sc_link sc)) 0) as [Ht|Ht].
    + rewrite (kprobe_vfs_link_null_target K h ctx st sc Hs Ht).
      unfold accounted, pending. cbn. rewrite Hs. lia.
    + unfold kprobe_vfs_link, peek_syscall. rewrite Hs.
      destruct (Z.eqb_spec (l_target_dentry (sc_link sc)) 0);
        [contradiction | apply accounted_refl].
  - rewrite kprobe_vfs_link_idle by exact Hs. apply accounted_refl.
Qed.

Lemma sys_link_ret_accounted K h dr ctx st :
  accounted st (sys_link_ret K h dr ctx (ctx_retval dr ctx) st).
Proof.
  destruct (IS_UNHANDLED_ERROR K (ctx_retval dr ctx)) eqn:Hu.
  - rewrite sys_link_ret_unhandled by exact Hu. apply accounted_refl.
  - destruct (syscalls st) as [sc|] eqn:Hs.
    + rewrite (sys_link_ret_pending K h dr ctx _ st sc Hs Hu eq_refl).
      unfold accounted, pending. cbn. rewrite Hs, length_app.
      destruct (negb (sc_discarded sc) && is_event_enabled K EVENT_LINK
                && completed h); cbn [length]; lia.
    + rewrite sys_link_ret_idle by exact Hs. apply accounted_refl.
Qed.

Lemma fire_accounted K p st : accounted st (fire K p st).
Proof.
  destruct p; cbn [fire].
  - apply trace__sys_link_accounted.
  - apply trace__sys_link_accounted.
  - unfold kprobe_do_linkat. destruct (peek_syscall EVENT_LINK st);
      [apply accounted_refl | apply trace__sys_link_accounted].
  - apply kprobe_vfs_link_accounted.
  - apply (sys_link_ret_accounted K h DR_KPROBE).
  - apply (sys_link_ret_accounted K h DR_KPROBE).
  - apply (sys_link_ret_accounted K h DR_KPROBE).
  - apply (sys_link_ret_accounted K h DR_TRACEPOINT).
Qed.

(** Whatever probes fire, in whatever order and from whatever state: the
    entries popped and the entry still pending are exactly the entries
    pushed, and there are at most as many new events as new pops. *)
Theorem run_accounted K (ps : list probe) st : accounted st (run K ps st).
Proof.
  revert st. induction ps as [|p ps IH]; intros st; cbn [run].
  - apply accounted_refl.
  - eapply accounted_trans; [apply fire_accounted | apply IH].
Qed.


(** ** One instance, from an idle thread *)

Section Instance.

Variable K : kernel.
Variables entry_ctx vfs_ctx ret_ctx : pt_regs.
Variables h_vfs h_ret h_ret' : helpers_t.
Variable st : state.

Hypothesis idle_thread : syscalls st = None.
Hypothesis process_kept :
  is_discarded_by_process K (policy_mode_of (fetch_policy K EVENT_LINK))
    EVENT_LINK = false.

Let fresh : syscall_cache_t :=
  new_syscall (fetch_policy K EVENT_LINK) SYNC_SYSCALL.
Let captured : syscall_cache_t := vfs_link_capture K vfs_ctx fresh.
Let entry : syscall_cache_t := entry_after_vfs_link K h_vfs vfs_ctx fresh.
Let retval : Z := int32 (PT_REGS_RC ret_ctx).

Lemma link_prefix_state :
  run K (link_prefix entry_ctx vfs_ctx h_vfs) st
  = {| syscalls := Some entry;
       ring_ref :=
         if filter_syscall K captured then ring_ref st
         else resolver_ref h_vfs (ring_ref st);
       events := events st;
       invalidations := invalidations st;
       discarded_stats :=
         if negb (filter_syscall K captured) && resolver_discards K h_vfs
         then S (discarded_stats st) else discarded_stats st;
       resolver_calls :=
         if filter_syscall K captured then resolver_calls st
         else S (resolver_calls st);
       pushes := S (pushes st);
       pops := pops st |}.
Proof.
  unfold link_prefix. cbn [run fire]. unfold kprobe_link.
  rewrite trace__sys_link_push by assumption.
  unfold cache_syscall. rewrite idle_thread.
  erewrite kprobe_do_linkat_pending by reflexivity.
  erewrite kprobe_vfs_link_null_target by reflexivity.
  reflexivity.
Qed.

Lemma link_instance_split :
  run K (link_instance entry_ctx vfs_ctx ret_ctx h_vfs h_ret h_ret') st
  = kretprobe_link K h_ret' ret_ctx
      (kretprobe_do_linkat K h_ret ret_ctx
         (run K (link_prefix entry_ctx vfs_ctx h_vfs) st)).
Proof. reflexivity. Qed.

(** Whether [sys_link_ret] hands the instance to user space. *)
Let pass_to_userspace : bool :=
  negb (sc_discarded entry) && is_event_enabled K EVENT_LINK.

Lemma link_instance_handled :
  IS_UNHANDLED_ERROR K retval = false ->
  let after_vfs := run K (link_prefix entry_ctx vfs_ctx h_vfs) st in
  let src_key := f_path_key (l_src_file (sc_link entry)) in
  run K (link_instance entry_ctx vfs_ctx ret_ctx h_vfs h_ret h_ret') st
  = {| syscalls := None;
       ring_ref :=
         if pass_to_userspace then resolver_ref h_ret (ring_ref after_vfs)
         else ring_ref after_vfs;
       events :=
         events st ++
         (if pass_to_userspace && completed h_ret
          then [link_event_of K h_ret retval entry
                  (resolver_ref h_ret (ring_ref after_vfs))]
          else []);
       invalidations :=
         invalidations st ++
         (if 0 <=? retval
          then [(pk_mount_id src_key, pk_ino src_key,
                 negb pass_to_userspace)]
          else []);
       discarded_stats := discarded_stats after_vfs;
       resolver_calls :=
         if pass_to_userspace then S (resolver_calls after_vfs)
         else resolver_calls after_vfs;
       pushes := S (pushes st);
       pops := S (pops st) |}.
Proof.
  intros Hu after_vfs src_key. rewrite link_instance_split.
  fold after_vfs. unfold kretprobe_link, kprobe_sys_link_ret,
    kretprobe_do_linkat. fold retval.
  assert (Hs : syscalls after_vfs = Some entry)
    by (subst after_vfs; rewrite link_prefix_state; reflexivity).
  rewrite (sys_link_ret_pending K h_ret DR_KPROBE ret_ctx retval after_vfs
             entry Hs Hu eq_refl).
  rewrite sys_link_ret_idle by reflexivity.
  fold pass_to_userspace src_key.
  subst after_vfs. rewrite link_prefix_state. reflexivity.
Qed.

Lemma link_instance_unhandled :
  IS_UNHANDLED_ERROR K retval = true ->
  run K (link_instance entry_ctx vfs_ctx ret_ctx h_vfs h_ret h_ret') st
  = run K (link_prefix entry_ctx vfs_ctx h_vfs) st.
Proof.
  intros Hu. rewrite link_instance_split.
  unfold kretprobe_link, kprobe_sys_link_ret, kretprobe_do_linkat.
  fold retval. rewrite !sys_link_ret_unhandled by assumption. reflexivity.
Qed.

End Instance.

(** ** The fake inode of the target key *)

Lemma u32_range z : 0 <= u32 z < 2 ^ 32.
Proof. unfold u32. apply Z.mod_pos_bound. lia. Qed.

Lemma fake_inode_value msw rnd :
  0 <= msw < 2 ^ 32 ->
  u64 (Z.lor (Z.shiftl msw 32) (u32 rnd)) = msw * 2 ^ 32 + u32 rnd.
Proof.
  intros Hm. pose proof (u32_range rnd) as Hr.
  assert (Hdisj : Z.land (Z.shiftl msw 32) (u32 rnd) = 0).
  { apply Z.bits_inj'. intros n Hn. rewrite Z.land_spec, Z.bits_0.
    destruct (Z.ltb_spec n 32) as [Hlt|Hge].
    - rewrite Z.shiftl_spec_low by lia. reflexivity.
    - destruct (Z.eq_dec (u32 rnd) 0) as [e|ne].
      + rewrite e, Z.bits_0, andb_false_r. reflexivity.
      + assert (Z.log2 (u32 rnd) < 32) by (apply Z.log2_lt_pow2; lia).
        rewrite (Z.bits_above_log2 (u32 rnd) n), andb_false_r by lia.
        reflexivity. }
  rewrite <- Z.lxor_lor, <- Z.add_nocarry_lxor by exact Hdisj.
  rewrite Z.shiftl_mul_pow2 by lia.
  unfold u64. apply Z.mod_small. nia.
Qed.

Lemma fake_inode_high_word msw rnd :
  0 <= msw < 2 ^ 32 ->
  Z.shiftr (u64 (Z.lor (Z.shiftl msw 32) (u32 rnd))) 32 = msw.
Proof.
  intros Hm. rewrite fake_inode_value by exact Hm.
  rewrite Z.shiftr_div_pow2 by lia.
  pose proof (u32_range rnd). symmetry.
  apply (Z.div_unique _ _ msw (u32 rnd)); lia.
Qed.

Lemma fake_inode_low_word msw rnd :
  0 <= msw < 2 ^ 32 ->
  u64 (Z.lor (Z.shiftl msw 32) (u32 rnd)) mod 2 ^ 32 = u32 rnd.
Proof.
  intros Hm. rewrite fake_inode_value by exact Hm.
  pose proof (u32_range rnd). symmetry.
  apply (Z.mod_unique _ _ msw (u32 rnd)); lia.
Qed.

(** ** What one instance guarantees *)

Section InstanceProperties.

Variable K : kernel.
Variables entry_ctx vfs_ctx ret_ctx : pt_regs.
Variables h_vfs h_ret h_ret' : helpers_t.
Variable st : state.

Let fresh : syscall_cache_t :=
  new_syscall (fetch_policy K EVENT_LINK) SYNC_SYSCALL.
Let captured : syscall_cache_t := vfs_link_capture K vfs_ctx fresh.
Let prepared : syscall_cache_t := vfs_link_prepare K h_vfs captured.
Let retval : Z := int32 (PT_REGS_RC ret_ctx).
Let after_vfs : state := run K (link_prefix entry_ctx vfs_ctx h_vfs) st.
Let final : state :=
  run K (link_instance entry_ctx vfs_ctx ret_ctx h_vfs h_ret h_ret') st.

(** C8. The source matches the deny list: [kprobe_vfs_link] keeps the
    entry in the cache, flagged as discarded, and dispatches no resolver;
    once the call has returned a non-negative value the source key has been
    invalidated, the entry is gone from the cache, and no event has been
    emitted at any point. *)
Theorem deny_listed_source_tracked_invalidated_silent :
  syscalls st = None ->
  is_discarded_by_process K (policy_mode_of (fetch_policy K EVENT_LINK))
    EVENT_LINK = false ->
  policy_mode_of (fetch_policy K EVENT_LINK) = DENY_LIST ->
  link_approvers K captured = true ->
  0 <= retval ->
  IS_UNHANDLED_ERROR K retval = false ->
  let src_key := f_path_key (l_src_file (sc_link captured)) in
  (pushes after_vfs = S (pushes st)
   /\ syscalls after_vfs = Some (set_sc_discarded true captured)
   /\ resolver_calls after_vfs = resolver_calls st
   /\ events after_vfs = events st)
  /\ invalidations final
     = invalidations st ++ [(pk_mount_id src_key, pk_ino src_key, true)]
  /\ events final = events st
  /\ syscalls final = None.
Proof.
  intros Hidle Hkept Hmode Hmatch Hr Hu src_key.
  assert (Hf : filter_syscall K captured = true).
  { unfold filter_syscall.
    change (sc_policy captured) with (fetch_policy K EVENT_LINK).
    rewrite Hmode. exact Hmatch. }
  assert (He : entry_after_vfs_link K h_vfs vfs_ctx fresh
               = set_sc_discarded true captured).
  { unfold entry_after_vfs_link. fold captured. rewrite Hf. reflexivity. }
  subst after_vfs final. split.
  - rewrite link_prefix_state by assumption. fold fresh captured.
    rewrite Hf, He. cbn. auto.
  - rewrite link_instance_handled by assumption. fold fresh. rewrite He.
    cbn [sc_discarded set_sc_discarded negb andb syscalls events
         invalidations].
    apply Z.leb_le in Hr. fold retval. rewrite Hr.
    rewrite app_nil_r. auto.
Qed.

(** C2, as amended. An accepted instance (kept by the process-level policy
    and by the approvers, source path resolved with a result other than
    [DENTRY_DISCARDED]) whose call returns a status that is not an unhandled
    error emits exactly one LINK event, carrying the resolved source and
    target records, provided LINK events are enabled and the dispatch of the
    target path's resolver succeeds and reaches its completion handler. *)
Theorem accepted_link_emits_one_event ret_src ref_src ret_dst ref_dst :
  syscalls st = None ->
  is_discarded_by_process K (policy_mode_of (fetch_policy K EVENT_LINK))
    EVENT_LINK = false ->
  filter_syscall K captured = false ->
  path_resolution h_vfs = Completed ret_src ref_src ->
  ret_src <> DENTRY_DISCARDED K ->
  is_event_enabled K EVENT_LINK = true ->
  IS_UNHANDLED_ERROR K retval = false ->
  path_resolution h_ret = Completed ret_dst ref_dst ->
  exists ev,
    events final = events st ++ [ev]
    /\ ev_type ev = EVENT_LINK
    /\ ev_retval ev = retval
    /\ ev_source ev = set_f_path_ref ref_src (l_src_file (sc_link prepared))
    /\ ev_target ev
       = set_f_path_ref ref_dst (l_target_file (sc_link prepared)).
Proof.
  intros Hidle Hkept Hf Hsrc Hnd Hen Hu Hdst.
  subst final. rewrite link_instance_handled by assumption. fold fresh.
  cbn [events]. rewrite entry_discarded. fold captured.
  unfold resolver_discards, completed, resolver_ref.
  rewrite Hf, Hsrc, Hen, Hdst.
  destruct (Z.eqb_spec ret_src (DENTRY_DISCARDED K)) as [e|_];
    [contradiction|].
  cbn [new_syscall fresh sc_discarded orb negb andb].
  eexists. split; [reflexivity|].
  unfold link_event_of. cbn [ev_type ev_retval ev_source ev_target].
  rewrite entry_src_file, entry_target_file by assumption.
  rewrite Hsrc. fold captured prepared. auto.
Qed.

(** C4, as amended. From an idle thread, one instance emits at most one
    event, and it emits one only if the process-level policy kept it, the
    entry in the cache after [kprobe_vfs_link] is not flagged as discarded,
    LINK events are enabled, the return value is not an unhandled error,
    and the resolver of the target path was dispatched and reached its
    completion handler. Nothing is asked of the source path's resolution
    beyond not ending on [DENTRY_DISCARDED]. *)
Theorem event_only_if_kept_and_target_resolved :
  syscalls st = None ->
  (length (events final) <= length (events st) + 1)%nat
  /\ (events final <> events st ->
      is_discarded_by_process K (policy_mode_of (fetch_policy K EVENT_LINK))
        EVENT_LINK = false
      /\ (exists sc,
            syscalls after_vfs = Some sc /\ sc_discarded sc = false)
      /\ is_event_enabled K EVENT_LINK = true
      /\ IS_UNHANDLED_ERROR K retval = false
      /\ completed h_ret = true).
Proof.
  intros Hidle. subst final after_vfs.
  destruct (is_discarded_by_process K
              (policy_mode_of (fetch_policy K EVENT_LINK)) EVENT_LINK)
    eqn:Hkept.
  { rewrite run_discarded_idle by assumption.
    split; [lia | congruence]. }
  destruct (IS_UNHANDLED_ERROR K retval) eqn:Hu.
  { rewrite link_instance_unhandled, !link_prefix_state by assumption.
    cbn [events]. split; [lia | congruence]. }
  rewrite link_instance_handled, !link_prefix_state by assumption.
  cbn [events syscalls]. fold fresh.
  destruct (sc_discarded (entry_after_vfs_link K h_vfs vfs_ctx fresh))
    eqn:Hd, (is_event_enabled K EVENT_LINK), (completed h_ret);
    cbn [negb andb]; rewrite ?app_nil_r, ?length_app; cbn [length];
    (split; [lia|]); intros Hne; try congruence.
  repeat split; try reflexivity. eexists; split; [reflexivity | exact Hd].
Qed.


(** C7, as amended. A hard link made through [link(2)], kept by the
    policies, whose call returns a non-negative value. In the entry
    [kprobe_vfs_link] leaves in the cache, the target key's inode is
    [FAKE_INODE_MSW] in the high word and the random number in the low word
    (so it differs from the source inode whenever the high word of the
    source inode is not [FAKE_INODE_MSW]), the target's metadata is the
    source's, and the target's mount id is the source's. The instance emits
    at most one event; the event it emits has type LINK, the call's return
    value, no flag set, and carries these two records; it is emitted when
    the source is not discarded by the resolver, LINK events are enabled
    and the target path's resolver reaches its completion handler. *)
Theorem hard_link_target_record :
  syscalls st = None ->
  is_discarded_by_process K (policy_mode_of (fetch_policy K EVENT_LINK))
    EVENT_LINK = false ->
  filter_syscall K captured = false ->
  0 <= retval ->
  IS_UNHANDLED_ERROR K retval = false ->
  0 <= FAKE_INODE_MSW K < 2 ^ 32 ->
  exists sc,
    syscalls after_vfs = Some sc
    /\ let src := l_src_file (sc_link sc) in
       let tgt := l_target_file (sc_link sc) in
       let src_ino := pk_ino (f_path_key src) in
       let tgt_ino := pk_ino (f_path_key tgt) in
       Z.shiftr tgt_ino 32 = FAKE_INODE_MSW K
       /\ tgt_ino mod 2 ^ 32 = u32 (bpf_get_prandom_u32 h_vfs)
       /\ (Z.shiftr src_ino 32 <> FAKE_INODE_MSW K -> tgt_ino <> src_ino)
       /\ src_ino = pk_ino (f_path_key (l_src_file (sc_link captured)))
       /\ f_metadata tgt = f_metadata src
       /\ f_metadata src = fill_file_metadata K (PT_REGS_PARM1 vfs_ctx)
       /\ pk_mount_id (f_path_key tgt) = pk_mount_id (f_path_key src)
       /\ (events final = events st
           \/ exists ev,
                events final = events st ++ [ev]
                /\ ev_type ev = EVENT_LINK
                /\ 0 <= ev_retval ev
                /\ ev_flags ev = 0
                /\ ev_source ev = src
                /\ f_path_key (ev_target ev) = f_path_key tgt
                /\ f_metadata (ev_target ev) = f_metadata tgt)
       /\ (sc_discarded sc = false ->
           is_event_enabled K EVENT_LINK = true ->
           completed h_ret = true ->
           exists ev, events final = events st ++ [ev]).
Proof.
  intros Hidle Hkept Hf Hr Hu Hm. subst after_vfs final.
  rewrite link_prefix_state, link_instance_handled by assumption.
  fold fresh. set (entry := entry_after_vfs_link K h_vfs vfs_ctx fresh).
  exists entry. split; [reflexivity|]. cbv zeta.
  assert (Hsrc_key :
    f_path_key (l_src_file (sc_link entry))
    = f_path_key (l_src_file (sc_link captured)))
    by apply entry_src_key.
  assert (Htgt : l_target_file (sc_link entry)
                 = l_target_file (sc_link prepared))
    by (apply entry_target_file; exact Hf).
  assert (Hsrc_meta : f_metadata (l_src_file (sc_link entry))
                      = fill_file_metadata K (PT_REGS_PARM1 vfs_ctx)).
  { subst entry. rewrite entry_src_file by exact Hf.
    rewrite prepare_src_file, capture_src_dentry.
    destruct (path_resolution h_vfs); reflexivity. }
  rewrite Htgt, Hsrc_key, Hsrc_meta. unfold prepared, captured.
  rewrite prepare_target_key, prepare_target_metadata, capture_src_dentry.
  cbn [pk_ino pk_mount_id events].
  rewrite fake_inode_high_word, fake_inode_low_word by exact Hm.
  repeat split.
  - intros Hne Heq. apply Hne. rewrite <- Heq.
    apply fake_inode_high_word, Hm.
  - destruct (negb (sc_discarded entry) && is_event_enabled K EVENT_LINK
              && completed h_ret).
    + right. eexists. split; [reflexivity|].
      unfold link_event_of.
      cbn [ev_type ev_retval ev_flags ev_source ev_target f_path_key
           f_metadata set_f_path_ref].
      subst entry. rewrite entry_async, Htgt. unfold prepared, captured.
      rewrite prepare_target_key, prepare_target_metadata,
        capture_src_dentry.
      repeat split. exact Hr.
    + left. apply app_nil_r.
  - intros Hd Hen Hc. rewrite Hd, Hen, Hc. eexists. reflexivity.
Qed.


(** Every handled outcome of an instance (event emitted, discarded by the
    approvers or by the resolver, LINK events disabled, resolver not
    dispatched) takes the entry out of the cache exactly once. *)
Theorem handled_instance_pops_once :
  syscalls st = None ->
  is_discarded_by_process K (policy_mode_of (fetch_policy K EVENT_LINK))
    EVENT_LINK = false ->
  IS_UNHANDLED_ERROR K retval = false ->
  syscalls final = None
  /\ pushes final = S (pushes st)
  /\ pops final = S (pops st).
Proof.
  intros Hidle Hkept Hu. subst final.
  rewrite link_instance_handled by assumption. cbn. auto.
Qed.

(** When the call returns an unhandled error, both return probes leave at
    their first test: the entry [kprobe_link] pushed is still in the cache
    after the instance, and nothing was popped. *)
Theorem unhandled_instance_keeps_entry :
  syscalls st = None ->
  is_discarded_by_process K (policy_mode_of (fetch_policy K EVENT_LINK))
    EVENT_LINK = false ->
  IS_UNHANDLED_ERROR K retval = true ->
  final = after_vfs
  /\ (exists sc, syscalls final = Some sc)
  /\ pushes final = S (pushes st)
  /\ pops final = pops st
  /\ events final = events st.
Proof.
  intros Hidle Hkept Hu. subst final after_vfs.
  rewrite link_instance_unhandled by assumption.
  rewrite link_prefix_state by assumption. cbn. eauto 6.
Qed.


End InstanceProperties.

(** ** The instance theorems on explicit inputs *)

Lemma accepted_link_emits_one_event_witness :
  let K := test_kernel false DENY_LIST true (fun d => d) [] in
  let h_vfs := helpers 7 10 (Completed 3 64) in
  let vfs_ctx := regs_vfs_link 1000 2000 in
  let prepared :=
    vfs_link_prepare K h_vfs
      (vfs_link_capture K vfs_ctx
         (new_syscall (fetch_policy K EVENT_LINK) SYNC_SYSCALL)) in
  exists ev,
    events
      (run K
         (link_instance (regs_return 0) vfs_ctx (regs_return 0) h_vfs
            (helpers 0 20 (Completed 2 128)) (helpers 0 30 TailCallFailed))
         idle)
    = events idle ++ [ev]
    /\ ev_type ev = EVENT_LINK
    /\ ev_retval ev = int32 (PT_REGS_RC (regs_return 0))
    /\ ev_source ev = set_f_path_ref 64 (l_src_file (sc_link prepared))
    /\ ev_target ev = set_f_path_ref 128 (l_target_file (sc_link prepared)).
Proof.
  intros K h_vfs vfs_ctx prepared.
  apply (accepted_link_emits_one_event K (regs_return 0) vfs_ctx
           (regs_return 0) h_vfs (helpers 0 20 (Completed 2 128))
           (helpers 0 30 TailCallFailed) idle 3 64 2 128);
    try reflexivity.
  vm_compute. discriminate.
Defined.

(** C2, as stated, fails: the instance below is accepted and its call
    returns 0, yet no event is emitted, once because the tail call into the
    target path's resolver is not issued (the hook then pops the entry and
    returns), once because LINK events are disabled. *)
Lemma accepted_link_without_event :
  let h_vfs := helpers 7 10 (Completed 3 64) in
  let vfs_ctx := regs_vfs_link 1000 2000 in
  let instance h_ret :=
    link_instance (regs_return 0) vfs_ctx (regs_return 0) h_vfs h_ret
      (helpers 0 30 TailCallFailed) in
  let K := test_kernel false DENY_LIST true (fun d => d) [] in
  let K' := test_kernel false DENY_LIST false (fun d => d) [] in
  (exists sc,
     syscalls (run K (link_prefix (regs_return 0) vfs_ctx h_vfs) idle)
     = Some sc
     /\ sc_discarded sc = false)
  /\ int32 (PT_REGS_RC (regs_return 0)) = 0
  /\ events (run K (instance (helpers 0 20 TailCallFailed)) idle) = []
  /\ events (run K' (instance (helpers 0 20 (Completed 2 128))) idle) = [].
Proof.
  cbv zeta. split; [eexists; split; vm_compute; reflexivity|].
  repeat split; vm_compute; reflexivity.
Qed.


Lemma event_only_if_kept_and_target_resolved_witness :
  let K := test_kernel false DENY_LIST true (fun d => d) [] in
  let h_vfs := helpers 7 10 (Completed 3 64) in
  let h_ret := helpers 0 20 (Completed 2 128) in
  let vfs_ctx := regs_vfs_link 1000 2000 in
  let after_vfs := run K (link_prefix (regs_return 0) vfs_ctx h_vfs) idle in
  let final :=
    run K
      (link_instance (regs_return 0) vfs_ctx (regs_return 0) h_vfs h_ret
         (helpers 0 30 TailCallFailed)) idle in
  (length (events final) <= length (events idle) + 1)%nat
  /\ (events final <> events idle ->
      is_discarded_by_process K (policy_mode_of (fetch_policy K EVENT_LINK))
        EVENT_LINK = false
      /\ (exists sc,
            syscalls after_vfs = Some sc /\ sc_discarded sc = false)
      /\ is_event_enabled K EVENT_LINK = true
      /\ IS_UNHANDLED_ERROR K (int32 (PT_REGS_RC (regs_return 0))) = false
      /\ completed h_ret = true).
Proof.
  intros K h_vfs h_ret vfs_ctx after_vfs final.
  apply (event_only_if_kept_and_target_resolved K (regs_return 0) vfs_ctx
           (regs_return 0) h_vfs h_ret (helpers 0 30 TailCallFailed) idle).
  reflexivity.
Defined.

(** C4, as stated, fails: below, the tail call into the resolver of the
    source path is not issued, so that resolution never reaches a terminal
    state, let alone DONE; the instance still emits its event. *)
Lemma event_without_source_resolution :
  let K := test_kernel false DENY_LIST true (fun d => d) [] in
  let h_vfs := helpers 7 10 TailCallFailed in
  let final :=
    run K
      (link_instance (regs_return 0) (regs_vfs_link 1000 2000)
         (regs_return 0) h_vfs (helpers 0 20 (Completed 2 128))
         (helpers 0 30 TailCallFailed)) idle in
  completed h_vfs = false
  /\ length (events final) = 1%nat
  /\ map (fun ev => f_path_ref (ev_source ev)) (events final) = [0].
Proof. cbv zeta. repeat split; vm_compute; reflexivity. Qed.


Lemma hard_link_target_record_witness :
  let K := test_kernel false DENY_LIST true (fun d => d) [] in
  let h_vfs := helpers 7 10 (Completed 3 64) in
  let h_ret := helpers 0 20 (Completed 2 128) in
  let vfs_ctx := regs_vfs_link 1000 2000 in
  let after_vfs := run K (link_prefix (regs_return 0) vfs_ctx h_vfs) idle in
  let final :=
    run K
      (link_instance (regs_return 0) vfs_ctx (regs_return 0) h_vfs h_ret
         (helpers 0 30 TailCallFailed)) idle in
  exists sc,
    syscalls after_vfs = Some sc
    /\ Z.shiftr (pk_ino (f_path_key (l_target_file (sc_link sc)))) 32
       = FAKE_INODE_MSW K
    /\ pk_ino (f_path_key (l_target_file (sc_link sc))) mod 2 ^ 32 = 7
    /\ pk_ino (f_path_key (l_target_file (sc_link sc)))
       <> pk_ino (f_path_key (l_src_file (sc_link sc)))
    /\ f_metadata (l_target_file (sc_link sc))
       = f_metadata (l_src_file (sc_link sc))
    /\ pk_mount_id (f_path_key (l_target_file (sc_link sc)))
       = pk_mount_id (f_path_key (l_src_file (sc_link sc)))
    /\ exists ev, events final = events idle ++ [ev].
Proof.
  intros K h_vfs h_ret vfs_ctx after_vfs final.
  assert (Hm : 0 <= FAKE_INODE_MSW K < 2 ^ 32) by (cbn; lia).
  assert (Hr : 0 <= int32 (PT_REGS_RC (regs_return 0)))
    by (vm_compute; discriminate).
  destruct (hard_link_target_record K (regs_return 0) vfs_ctx (regs_return 0)
              h_vfs h_ret (helpers 0 30 TailCallFailed) idle
              eq_refl eq_refl eq_refl Hr eq_refl Hm)
    as (sc & Hs & Hhi & Hlo & Hne & Hino & Hmeta & _ & Hmnt & _ & Hev).
  exists sc. split; [exact Hs|].
  assert (Hsc : Some sc = syscalls after_vfs) by (symmetry; exact Hs).
  vm_compute in Hsc. injection Hsc as ->.
  split; [vm_compute; reflexivity|].
  split; [vm_compute; reflexivity|].
  split; [vm_compute; discriminate|].
  split; [vm_compute; reflexivity|].
  split; [vm_compute; reflexivity|].
  apply Hev; reflexivity.
Defined.

(** C7, as stated, fails on the inode: the source file below has the inode
    number [FAKE_INODE_MSW << 32 | 7] and the random number drawn is 7, so
    the target key of the emitted event carries the source's inode. *)
Lemma fake_inode_equal_to_source_inode :
  let colliding d := if d =? 1000 then 3735928833 * 2 ^ 32 + 7 else d in
  let K := test_kernel false DENY_LIST true colliding [] in
  let final :=
    run K
      (link_instance (regs_return 0) (regs_vfs_link 1000 2000)
         (regs_return 0) (helpers 7 10 (Completed 3 64))
         (helpers 0 20 (Completed 2 128)) (helpers 0 30 TailCallFailed))
      idle in
  exists ev,
    events final = [ev]
    /\ 0 <= ev_retval ev
    /\ pk_ino (f_path_key (ev_target ev))
       = pk_ino (f_path_key (ev_source ev)).
Proof.
  cbv zeta. eexists. split; [vm_compute; reflexivity|].
  split; [vm_compute; discriminate | vm_compute; reflexivity].
Qed.

(** C1, on the input where it fails: [vfs_link] refuses the link with
    [-EMLINK] (-31), an unhandled error. The entry pushed at the entry of
    the call is still cached after both return probes: one push, no pop. *)
Theorem unhandled_error_leaves_entry_cached :
  let K := test_kernel false DENY_LIST true (fun d => d) [] in
  let final :=
    run K
      (link_instance (regs_return 0) (regs_vfs_link 1000 2000)
         (regs_return (-31)) (helpers 7 10 (Completed 3 64))
         (helpers 0 20 (Completed 2 128)) (helpers 0 30 (Completed 2 128)))
      idle in
  IS_UNHANDLED_ERROR K (int32 (PT_REGS_RC (regs_return (-31)))) = true
  /\ (exists sc, syscalls final = Some sc)
  /\ pushes final = 1%nat
  /\ pops final = 0%nat.
Proof.
  cbv zeta. split; [vm_compute; reflexivity|].
  split; [eexists; vm_compute; reflexivity|].
  split; vm_compute; reflexivity.
Qed.

(** C5, on the input where it fails: [kretprobe_do_linkat] with the
    unhandled error [-EMLINK] returns before it looks the entry up. It
    emits nothing, and the entry stays in the cache, not popped. *)
Theorem sys_link_ret_unhandled_error_skips_pop :
  let K := test_kernel false DENY_LIST true (fun d => d) [] in
  let pending :=
    run K
      (link_prefix (regs_return 0) (regs_vfs_link 1000 2000)
         (helpers 7 10 (Completed 3 64))) idle in
  let after :=
    kretprobe_do_linkat K (helpers 0 20 (Completed 2 128))
      (regs_return (-31)) pending in
  IS_UNHANDLED_ERROR K (int32 (PT_REGS_RC (regs_return (-31)))) = true
  /\ after = pending
  /\ (exists sc, syscalls after = Some sc)
  /\ pops after = 0%nat
  /\ events after = [].
Proof.
  cbv zeta. split; [vm_compute; reflexivity|].
  split; [vm_compute; reflexivity|].
  split; [eexists; vm_compute; reflexivity|].
  split; vm_compute; reflexivity.
Qed.



Lemma handled_instance_pops_once_witness :
  let K := test_kernel false DENY_LIST true (fun d => d) [1000] in
  let final :=
    run K
      (link_instance (regs_return 0) (regs_vfs_link 1000 2000)
         (regs_return 0) (helpers 7 10 (Completed 3 64))
         (helpers 0 20 (Completed 2 128)) (helpers 0 30 TailCallFailed))
      idle in
  syscalls final = None
  /\ pushes final = S (pushes idle)
  /\ pops final = S (pops idle).
Proof.
  intros K final.
  exact (handled_instance_pops_once K (regs_return 0)
           (regs_vfs_link 1000 2000) (regs_return 0)
           (helpers 7 10 (Completed 3 64)) (helpers 0 20 (Completed 2 128))
           (helpers 0 30 TailCallFailed) idle eq_refl eq_refl eq_refl).
Defined.

Lemma unhandled_instance_keeps_entry_witness :
  let K := test_kernel false DENY_LIST true (fun d => d) [] in
  let final :=
    run K
      (link_instance (regs_return 0) (regs_vfs_link 1000 2000)
         (regs_return (-31)) (helpers 7 10 (Completed 3 64))
         (helpers 0 20 (Completed 2 128)) (helpers 0 30 TailCallFailed))
      idle in
  (exists sc, syscalls final = Some sc)
  /\ pushes final = S (pushes idle)
  /\ pops final = pops idle
  /\ events final = events idle.
Proof.
  intros K final.
  exact (proj2
           (unhandled_instance_keeps_entry K (regs_return 0)
              (regs_vfs_link 1000 2000) (regs_return (-31))
              (helpers 7 10 (Completed 3 64))
              (helpers 0 20 (Completed 2 128))
              (helpers 0 30 TailCallFailed) idle eq_refl eq_refl eq_refl)).
Defined.

Lemma deny_listed_source_tracked_invalidated_silent_witness :
  let K := test_kernel false DENY_LIST true (fun d => d) [1000] in
  let after_vfs :=
    run K
      (link_prefix (regs_return 0) (regs_vfs_link 1000 2000)
         (helpers 7 10 (Completed 3 64))) idle in
  let final :=
    run K
      (link_instance (regs_return 0) (regs_vfs_link 1000 2000)
         (regs_return 0) (helpers 7 10 (Completed 3 64))
         (helpers 0 20 (Completed 2 128)) (helpers 0 30 TailCallFailed))
      idle in
  (pushes after_vfs = 1%nat
   /\ (exists sc, syscalls after_vfs = Some sc /\ sc_discarded sc = true)
   /\ resolver_calls after_vfs = 0%nat)
  /\ invalidations final = [(27, 1000, true)]
  /\ events final = []
  /\ syscalls final = None.
Proof.
  intros K after_vfs final.
  assert (Hr : 0 <= int32 (PT_REGS_RC (regs_return 0)))
    by (vm_compute; discriminate).
  destruct (deny_listed_source_tracked_invalidated_silent K (regs_return 0)
              (regs_vfs_link 1000 2000) (regs_return 0)
              (helpers 7 10 (Completed 3 64))
              (helpers 0 20 (Completed 2 128))
              (helpers 0 30 TailCallFailed) idle
              eq_refl eq_refl eq_refl eq_refl Hr eq_refl)
    as ((Hpush & Hentry & Hcalls & _) & Hinv & Hev & Hs).
  fold after_vfs in Hpush, Hentry, Hcalls. fold final in Hinv, Hev, Hs.
  split; [|split; [exact Hinv | split; [exact Hev | exact Hs]]].
  split; [exact Hpush|]. split; [|exact Hcalls].
  eexists. split; [exact Hentry | reflexivity].
Defined.

Lemma kprobe_vfs_link_idempotent_witness :
  let K := test_kernel false DENY_LIST true (fun d => d) [] in
  let pending_state :=
    run K
      (link_prefix (regs_return 0) (regs_vfs_link 1000 2000)
         (helpers 7 10 (Completed 3 64))) idle in
  let again :=
    kprobe_vfs_link K (helpers 9 11 (Completed 4 96))
      (regs_vfs_link 3000 4000) pending_state in
  again = pending_state
  /\ resolver_calls again = resolver_calls pending_state.
Proof.
  intros K pending_state again.
  destruct (peek_syscall EVENT_LINK pending_state) as [sc|] eqn:Hs;
    [|vm_compute in Hs; discriminate].
  assert (Ht : l_target_dentry (sc_link sc) <> 0).
  { assert (Hsc : Some sc = peek_syscall EVENT_LINK pending_state)
      by (symmetry; exact Hs).
    vm_compute in Hsc. injection Hsc as ->. vm_compute. discriminate. }
  destruct (kprobe_vfs_link_idempotent K (helpers 9 11 (Completed 4 96))
              (regs_vfs_link 3000 4000) pending_state sc Hs Ht)
    as (Heq & _ & Hcalls).
  split; [exact Heq | exact Hcalls].
Defined.



(** ** Further properties of the probes *)

Lemma capture_target_dentry K ctx sc :
  l_target_dentry (sc_link (vfs_link_capture K ctx sc))
  = vfs_link_target_dentry K ctx.
Proof.
  unfold vfs_link_capture, vfs_link_target_dentry.
  destruct (get_vfs_link_target_dentry_position K); reflexivity.
Qed.

Lemma entry_target_dentry K h ctx sc :
  l_target_dentry (sc_link (entry_after_vfs_link K h ctx sc))
  = vfs_link_target_dentry K ctx.
Proof.
  rewrite <- (capture_target_dentry K ctx sc).
  unfold entry_after_vfs_link, src_resolved.
  destruct (filter_syscall K (vfs_link_capture K ctx sc)); [reflexivity|].
  destruct (path_resolution h) as [|ret ref]; [reflexivity|].
  destruct (ret =? DENTRY_DISCARDED K); reflexivity.
Qed.

(** Once [kprobe_vfs_link] has captured a target dentry that is not [NULL],
    firing it again, with whatever registers and whatever the helpers
    return, changes nothing: the dentries, the records and the resolver
    dispatch of the first firing stand. *)
Theorem kprobe_vfs_link_twice K h1 ctx1 h2 ctx2 st sc :
  syscalls st = Some sc ->
  l_target_dentry (sc_link sc) = 0 ->
  vfs_link_target_dentry K ctx1 <> 0 ->
  kprobe_vfs_link K h2 ctx2 (kprobe_vfs_link K h1 ctx1 st)
  = kprobe_vfs_link K h1 ctx1 st.
Proof.
  intros Hs Ht Hcap.
  rewrite (kprobe_vfs_link_null_target K h1 ctx1 st sc Hs Ht).
  cbv zeta. unfold kprobe_vfs_link at 1, peek_syscall. cbn [syscalls].
  rewrite entry_target_dentry.
  destruct (Z.eqb_spec (vfs_link_target_dentry K ctx1) 0);
    [contradiction | reflexivity].
Qed.

(** The return probes read their context only for the return code, as an
    [int]: the tracepoint and the kretprobes act alike on equal codes. *)
Theorem return_probes_agree K h (ctx : pt_regs)
  (args : tracepoint_raw_syscalls_sys_exit_t) st :
  int32 (tp_ret args) = int32 (PT_REGS_RC ctx) ->
  tracepoint_handle_sys_link_exit K h args st = kretprobe_do_linkat K h ctx st
  /\ kretprobe_link K h ctx st = kretprobe_do_linkat K h ctx st
  /\ kretprobe_linkat K h ctx st = kretprobe_do_linkat K h ctx st.
Proof.
  intros Hr. split; [|split; reflexivity].
  unfold tracepoint_handle_sys_link_exit, kretprobe_do_linkat.
  rewrite Hr. set (retval := int32 (PT_REGS_RC ctx)).
  destruct (IS_UNHANDLED_ERROR K retval) eqn:Hu.
  { rewrite !sys_link_ret_unhandled by exact Hu. reflexivity. }
  destruct (syscalls st) as [sc|] eqn:Hs.
  - rewrite (sys_link_ret_pending K h DR_TRACEPOINT args retval st sc Hs Hu Hr).
    rewrite (sys_link_ret_pending K h DR_KPROBE ctx retval st sc Hs Hu
               eq_refl).
    reflexivity.
  - rewrite !sys_link_ret_idle by exact Hs. reflexivity.
Qed.

(** After a return probe that saw a handled return code, the thread has
    nothing pending, and any further return probe leaves the state as it
    is: the system-call return after the return of [do_linkat] neither pops
    nor emits a second time. *)
Theorem return_probe_after_handled_return K h dr ctx h' dr' ctx' retval' st :
  IS_UNHANDLED_ERROR K (ctx_retval dr ctx) = false ->
  let st1 := sys_link_ret K h dr ctx (ctx_retval dr ctx) st in
  syscalls st1 = None
  /\ sys_link_ret K h' dr' ctx' retval' st1 = st1.
Proof.
  intros Hu st1.
  assert (Hs1 : syscalls st1 = None).
  { subst st1. destruct (syscalls st) as [sc|] eqn:Hs.
    - rewrite (sys_link_ret_pending K h dr ctx _ st sc Hs Hu eq_refl).
      reflexivity.
    - rewrite sys_link_ret_idle by exact Hs. exact Hs. }
  split; [exact Hs1 | apply sys_link_ret_idle, Hs1].
Qed.

(** *** Pushes only grow, and a quiet thread emits nothing *)

Lemma trace__sys_link_cases K async st :
  trace__sys_link K async st = st
  \/ (syscalls st = None
      /\ pushes (trace__sys_link K async st) = S (pushes st)).
Proof.
  unfold trace__sys_link.
  destruct (is_discarded_by_process K _ _); [left; reflexivity|].
  unfold cache_syscall. destruct (syscalls st); [left | right]; auto.
Qed.

Lemma fire_quiet K p st :
  quiet st ->
  (pushes st <= pushes (fire K p st))%nat
  /\ (pushes (fire K p st) = pushes st ->
      events (fire K p st) = events st /\ quiet (fire K p st)).
Proof.
  intros Hq.
  assert (Hid : forall st', st' = st ->
    (pushes st <= pushes st')%nat
    /\ (pushes st' = pushes st -> events st' = events st /\ quiet st'))
    by (intros st' ->; auto).
  assert (Htrace : forall async,
    (pushes st <= pushes (trace__sys_link K async st))%nat
    /\ (pushes (trace__sys_link K async st) = pushes st ->
        events (trace__sys_link K async st) = events st
        /\ quiet (trace__sys_link K async st))).
  { intros async. destruct (trace__sys_link_cases K async st) as [E|[_ E]].
    - apply Hid, E.
    - rewrite E. split; [lia | intros; lia]. }
  assert (Hret : forall h dr ctx,
    let st' := sys_link_ret K h dr ctx (ctx_retval dr ctx) st in
    (pushes st <= pushes st')%nat
    /\ (pushes st' = pushes st -> events st' = events st /\ quiet st')).
  { intros h dr ctx st'. subst st'.
    destruct (IS_UNHANDLED_ERROR K (ctx_retval dr ctx)) eqn:Hu.
    { apply Hid, sys_link_ret_unhandled, Hu. }
    destruct (syscalls st) as [sc|] eqn:Hs.
    - rewrite (sys_link_ret_pending K h dr ctx _ st sc Hs Hu eq_refl).
      unfold quiet in Hq |- *. rewrite Hs in Hq. rewrite Hq.
      cbn. rewrite app_nil_r. auto.
    - apply Hid, sys_link_ret_idle, Hs. }
  destruct p; cbn [fire].
  - apply Htrace.
  - apply Htrace.
  - unfold kprobe_do_linkat. destruct (peek_syscall EVENT_LINK st);
      [apply Hid; reflexivity | apply Htrace].
  - destruct (syscalls st) as [sc|] eqn:Hs.
    + destruct (Z.eq_dec (l_target_dentry (sc_link sc)) 0) as [Ht|Ht].
      * rewrite (kprobe_vfs_link_null_target K h ctx st sc Hs Ht).
        unfold quiet in Hq |- *. rewrite Hs in Hq. cbn.
        rewrite entry_discarded, Hq. auto.
      * apply Hid. unfold kprobe_vfs_link, peek_syscall. rewrite Hs.
        destruct (Z.eqb_spec (l_target_dentry (sc_link sc)) 0);
          [contradiction | reflexivity].
    + apply Hid, kprobe_vfs_link_idle, Hs.
  - apply (Hret h DR_KPROBE).
  - apply (Hret h DR_KPROBE).
  - apply (Hret h DR_KPROBE).
  - apply (Hret h DR_TRACEPOINT).
Qed.

Lemma fire_pushes_mono K p st : (pushes st <= pushes (fire K p st))%nat.
Proof.
  assert (Htrace : forall async,
    (pushes st <= pushes (trace__sys_link K async st))%nat).
  { intros async. destruct (trace__sys_link_cases K async st) as [->|[_ ->]];
      lia. }
  assert (Hret : forall h dr ctx,
    (pushes st
     <= pushes (sys_link_ret K h dr ctx (ctx_retval dr ctx) st))%nat).
  { intros h dr ctx.
    destruct (IS_UNHANDLED_ERROR K (ctx_retval dr ctx)) eqn:Hu.
    { rewrite sys_link_ret_unhandled by exact Hu. lia. }
    destruct (syscalls st) as [sc|] eqn:Hs.
    - rewrite (sys_link_ret_pending K h dr ctx _ st sc Hs Hu eq_refl).
      cbn. lia.
    - rewrite sys_link_ret_idle by exact Hs. lia. }
  destruct p; cbn [fire].
  - apply Htrace.
  - apply Htrace.
  - unfold kprobe_do_linkat. destruct (peek_syscall EVENT_LINK st);
      [lia | apply Htrace].
  - destruct (syscalls st) as [sc|] eqn:Hs.
    + destruct (Z.eq_dec (l_target_dentry (sc_link sc)) 0) as [Ht|Ht].
      * rewrite (kprobe_vfs_link_null_target K h ctx st sc Hs Ht). cbn. lia.
      * unfold kprobe_vfs_link, peek_syscall. rewrite Hs.
        destruct (Z.eqb_spec (l_target_dentry (sc_link sc)) 0);
          [contradiction | cbn [negb]; lia].
    + rewrite kprobe_vfs_link_idle by exact Hs. lia.
  - apply (Hret h DR_KPROBE).
  - apply (Hret h DR_KPROBE).
  - apply (Hret h DR_KPROBE).
  - apply (Hret h DR_TRACEPOINT).
Qed.

Lemma run_pushes_mono K (ps : list probe) st :
  (pushes st <= pushes (run K ps st))%nat.
Proof.
  revert st. induction ps as [|p ps IH]; intros st; cbn [run]; [lia|].
  pose proof (fire_pushes_mono K p st). specialize (IH (fire K p st)). lia.
Qed.

(** A thread with nothing pending, or whose pending entry is flagged as
    discarded, emits no event, whatever probes fire and however the call
    returns, for as long as no new entry is pushed; and it stays quiet. *)
Theorem quiet_thread_never_emits K (ps : list probe) st :
  quiet st ->
  pushes (run K ps st) = pushes st ->
  events (run K ps st) = events st /\ quiet (run K ps st).
Proof.
  revert st. induction ps as [|p ps IH]; intros st Hq Hp; cbn [run] in *.
  - auto.
  - destruct (fire_quiet K p st Hq) as [Hle Hstep].
    pose proof (run_pushes_mono K ps (fire K p st)) as Hmono.
    assert (Hp1 : pushes (fire K p st) = pushes st) by lia.
    destruct (Hstep Hp1) as [He Hq1].
    destruct (IH (fire K p st) Hq1 ltac:(lia)) as [He' Hq'].
    split; [congruence | exact Hq'].
Qed.


(** ** More on one instance *)

Section InstanceOutcomes.

Variable K : kernel.
Variables entry_ctx vfs_ctx ret_ctx : pt_regs.
Variables h_vfs h_ret h_ret' : helpers_t.
Variable st : state.

Hypothesis idle_thread : syscalls st = None.
Hypothesis process_kept :
  is_discarded_by_process K (policy_mode_of (fetch_policy K EVENT_LINK))
    EVENT_LINK = false.

Let policy : policy_t := fetch_policy K EVENT_LINK.
Let retval : Z := int32 (PT_REGS_RC ret_ctx).
Let after_vfs : state := run K (link_prefix entry_ctx vfs_ctx h_vfs) st.
Let final : state :=
  run K (link_instance entry_ctx vfs_ctx ret_ctx h_vfs h_ret h_ret') st.

(** The source path is discarded by the resolver: the source callback flags
    the entry and counts the discard; at the return of the call the target
    path's resolver is not dispatched, nothing is emitted, the entry is
    popped, and after a success the source key is invalidated with the
    invalidation event requested. *)
Theorem source_discarded_by_resolver_silent ref :
  filter_syscall K
    (vfs_link_capture K vfs_ctx (new_syscall policy SYNC_SYSCALL)) = false ->
  path_resolution h_vfs = Completed (DENTRY_DISCARDED K) ref ->
  IS_UNHANDLED_ERROR K retval = false ->
  let src_key :=
    f_path_key
      (l_src_file
         (sc_link
            (vfs_link_capture K vfs_ctx (new_syscall policy SYNC_SYSCALL))))
  in
  (exists sc,
     syscalls after_vfs = Some sc
     /\ sc_discarded sc = true
     /\ f_path_ref (l_src_file (sc_link sc)) = ref)
  /\ discarded_stats after_vfs = S (discarded_stats st)
  /\ events final = events st
  /\ resolver_calls final = S (resolver_calls st)
  /\ syscalls final = None
  /\ pops final = S (pops st)
  /\ (0 <= retval ->
      invalidations final
      = invalidations st ++ [(pk_mount_id src_key, pk_ino src_key, true)]).
Proof.
  intros Hf Hres Hu src_key. subst after_vfs final policy.
  rewrite link_instance_handled, !link_prefix_state by assumption.
  cbn [syscalls events invalidations discarded_stats resolver_calls pops].
  set (entry := entry_after_vfs_link K h_vfs vfs_ctx
                  (new_syscall (fetch_policy K EVENT_LINK) SYNC_SYSCALL)).
  assert (Hd : sc_discarded entry = true).
  { subst entry. rewrite entry_discarded, Hf. unfold resolver_discards.
    rewrite Hres, Z.eqb_refl. reflexivity. }
  assert (Hrd : resolver_discards K h_vfs = true)
    by (unfold resolver_discards; rewrite Hres; apply Z.eqb_refl).
  rewrite Hd, Hf, Hrd. cbn [negb andb]. rewrite app_nil_r.
  split.
  { exists entry. split; [reflexivity|]. split; [exact Hd|].
    subst entry. rewrite entry_src_file by exact Hf. rewrite Hres.
    reflexivity. }
  repeat split.
  intros Hr. apply Z.leb_le in Hr. fold retval. rewrite Hr.
  subst entry. rewrite entry_src_key. reflexivity.
Qed.

(** The inode of the source is invalidated exactly when the call
    succeeded, once, under the key [kprobe_vfs_link] captured; the
    invalidation event is requested exactly when the link event will not
    be sent, because the entry is flagged as discarded or LINK events are
    disabled. A handled failure invalidates nothing. *)
Theorem invalidation_follows_success :
  IS_UNHANDLED_ERROR K retval = false ->
  let src_key :=
    f_path_key
      (l_src_file
         (sc_link
            (vfs_link_capture K vfs_ctx (new_syscall policy SYNC_SYSCALL))))
  in
  (retval < 0 -> invalidations final = invalidations st)
  /\ (0 <= retval ->
      exists sc,
        syscalls after_vfs = Some sc
        /\ invalidations final
           = invalidations st
             ++ [(pk_mount_id src_key, pk_ino src_key,
                  sc_discarded sc || negb (is_event_enabled K EVENT_LINK))]).
Proof.
  intros Hu src_key. subst after_vfs final policy.
  rewrite link_instance_handled, !link_prefix_state by assumption.
  cbn [syscalls invalidations]. fold retval. split.
  - intros Hr. destruct (Z.leb_spec 0 retval); [lia | apply app_nil_r].
  - intros Hr. apply Z.leb_le in Hr. rewrite Hr. eexists.
    split; [reflexivity|]. rewrite entry_src_key, negb_andb, negb_involutive.
    reflexivity.
Qed.

(** A handled failure of the call (a negative return code that
    [IS_UNHANDLED_ERROR] lets through) is reported like a success: the
    event is emitted with the negative return code. *)
Theorem handled_failure_is_reported :
  filter_syscall K
    (vfs_link_capture K vfs_ctx (new_syscall policy SYNC_SYSCALL)) = false ->
  resolver_discards K h_vfs = false ->
  is_event_enabled K EVENT_LINK = true ->
  completed h_ret = true ->
  retval < 0 ->
  IS_UNHANDLED_ERROR K retval = false ->
  (exists ev,
     events final = events st ++ [ev]
     /\ ev_type ev = EVENT_LINK
     /\ ev_retval ev = retval)
  /\ invalidations final = invalidations st.
Proof.
  intros Hf Hrd Hen Hc Hr Hu. subst final policy.
  rewrite link_instance_handled by assumption.
  cbn [events invalidations]. rewrite entry_discarded, Hf, Hrd, Hen, Hc.
  cbn [new_syscall sc_discarded orb negb andb]. fold retval.
  destruct (Z.leb_spec 0 retval); [lia|]. rewrite app_nil_r.
  split; [|reflexivity]. eexists. split; [reflexivity|]. auto.
Qed.

(** Whenever the instance emits its event, the target record in it has the
    layer flag the source dentry calls for: [UPPER_LAYER] on an overlay
    filesystem, no flag otherwise; its key and metadata are those prepared
    by [kprobe_vfs_link]. *)
Theorem emitted_target_layer_flag ev :
  IS_UNHANDLED_ERROR K retval = false ->
  events final = events st ++ [ev] ->
  f_flags (ev_target ev)
  = (if is_overlayfs K (PT_REGS_PARM1 vfs_ctx) then UPPER_LAYER K else 0)
  /\ f_metadata (ev_target ev)
     = fill_file_metadata K (PT_REGS_PARM1 vfs_ctx)
  /\ f_path_ref (ev_target ev) = resolver_ref h_ret (ring_ref after_vfs).
Proof.
  intros Hu Hev. subst final after_vfs policy.
  rewrite link_instance_handled in Hev by assumption.
  cbn [events] in Hev. apply app_inv_head in Hev.
  set (entry := entry_after_vfs_link K h_vfs vfs_ctx
                  (new_syscall (fetch_policy K EVENT_LINK) SYNC_SYSCALL))
    in *.
  destruct (sc_discarded entry) eqn:Hd; cbn [negb andb] in Hev;
    [discriminate|].
  destruct (is_event_enabled K EVENT_LINK && completed h_ret);
    [|discriminate].
  injection Hev as <-.
  assert (Hf : filter_syscall K
                 (vfs_link_capture K vfs_ctx
                    (new_syscall (fetch_policy K EVENT_LINK) SYNC_SYSCALL))
               = false).
  { subst entry. rewrite entry_discarded in Hd.
    destruct (filter_syscall K _); [|reflexivity].
    cbn in Hd. discriminate. }
  unfold link_event_of. cbn [ev_target f_flags f_metadata f_path_ref
                             set_f_path_ref].
  subst entry. rewrite entry_target_file by exact Hf.
  rewrite prepare_target_metadata, capture_src_dentry.
  split; [|split; reflexivity].
  unfold vfs_link_prepare. rewrite capture_src_dentry.
  destruct (is_overlayfs K (PT_REGS_PARM1 vfs_ctx)); cbn;
    unfold vfs_link_capture;
    destruct (get_vfs_link_target_dentry_position K); reflexivity.
Qed.

(** *** Entered through [do_linkat] *)

Let async_final : state :=
  run K (do_linkat_instance entry_ctx vfs_ctx ret_ctx h_vfs h_ret) st.

Lemma do_linkat_prefix_state :
  let fresh := new_syscall policy ASYNC_SYSCALL in
  let captured := vfs_link_capture K vfs_ctx fresh in
  run K (do_linkat_prefix entry_ctx vfs_ctx h_vfs) st
  = {| syscalls := Some (entry_after_vfs_link K h_vfs vfs_ctx fresh);
       ring_ref :=
         if filter_syscall K captured then ring_ref st
         else resolver_ref h_vfs (ring_ref st);
       events := events st;
       invalidations := invalidations st;
       discarded_stats :=
         if negb (filter_syscall K captured) && resolver_discards K h_vfs
         then S (discarded_stats st) else discarded_stats st;
       resolver_calls :=
         if filter_syscall K captured then resolver_calls st
         else S (resolver_calls st);
       pushes := S (pushes st);
       pops := pops st |}.
Proof.
  intros fresh captured. unfold do_linkat_prefix. cbn [run fire].
  unfold kprobe_do_linkat, peek_syscall. rewrite idle_thread.
  rewrite trace__sys_link_push by assumption.
  unfold cache_syscall. rewrite idle_thread.
  erewrite kprobe_vfs_link_null_target by reflexivity.
  reflexivity.
Qed.

(** An instance entered through [do_linkat] alone is tracked like one
    entered through the system call, and its event carries
    [EVENT_FLAGS_ASYNC]: when the policies keep it, LINK events are enabled
    and the target path's resolver completes, exactly one event is emitted
    with that flag and the entry is popped once. *)
Theorem do_linkat_instance_flags_async :
  filter_syscall K
    (vfs_link_capture K vfs_ctx (new_syscall policy ASYNC_SYSCALL)) = false ->
  resolver_discards K h_vfs = false ->
  is_event_enabled K EVENT_LINK = true ->
  completed h_ret = true ->
  IS_UNHANDLED_ERROR K retval = false ->
  (exists ev,
     events async_final = events st ++ [ev]
     /\ ev_type ev = EVENT_LINK
     /\ ev_flags ev = EVENT_FLAGS_ASYNC K
     /\ ev_retval ev = retval)
  /\ syscalls async_final = None
  /\ pushes async_final = S (pushes st)
  /\ pops async_final = S (pops st).
Proof.
  intros Hf Hrd Hen Hc Hu. subst async_final.
  change (run K (do_linkat_instance entry_ctx vfs_ctx ret_ctx h_vfs h_ret) st)
    with (kretprobe_do_linkat K h_ret ret_ctx
            (run K (do_linkat_prefix entry_ctx vfs_ctx h_vfs) st)).
  rewrite do_linkat_prefix_state. cbv zeta.
  unfold kretprobe_do_linkat. fold retval.
  erewrite sys_link_ret_pending by (reflexivity || assumption).
  cbn [syscalls events pushes pops].
  rewrite entry_discarded. fold policy. rewrite Hf, Hrd, Hen, Hc.
  cbn [new_syscall sc_discarded orb negb andb].
  split; [|auto]. eexists. split; [reflexivity|].
  unfold link_event_of. cbn [ev_type ev_flags ev_retval].
  rewrite entry_async. cbn. auto.
Qed.

End InstanceOutcomes.


(** ** The further properties on explicit inputs *)

Lemma kprobe_vfs_link_twice_witness :
  let K := test_kernel false DENY_LIST true (fun d => d) [] in
  let entered := run K [Kprobe_link] idle in
  let once :=
    kprobe_vfs_link K (helpers 7 10 (Completed 3 64))
      (regs_vfs_link 1000 2000) entered in
  kprobe_vfs_link K (helpers 9 11 (Completed 4 96))
    (regs_vfs_link 3000 4000) once
  = once.
Proof.
  intros K entered once.
  destruct (syscalls entered) as [sc|] eqn:Hs;
    [|vm_compute in Hs; discriminate].
  assert (Ht : l_target_dentry (sc_link sc) = 0).
  { assert (Hsc : Some sc = syscalls entered) by (symmetry; exact Hs).
    vm_compute in Hsc. injection Hsc as ->. reflexivity. }
  assert (Hcap : vfs_link_target_dentry K (regs_vfs_link 1000 2000) <> 0)
    by (vm_compute; discriminate).
  exact (kprobe_vfs_link_twice K (helpers 7 10 (Completed 3 64))
           (regs_vfs_link 1000 2000) (helpers 9 11 (Completed 4 96))
           (regs_vfs_link 3000 4000) entered sc Hs Ht Hcap).
Defined.

Lemma return_probes_agree_witness :
  let K := test_kernel false DENY_LIST true (fun d => d) [] in
  let pending_state :=
    run K
      (link_prefix (regs_return 0) (regs_vfs_link 1000 2000)
         (helpers 7 10 (Completed 3 64))) idle in
  let h := helpers 0 20 (Completed 2 128) in
  tracepoint_handle_sys_link_exit K h {| tp_ret := 2 ^ 32 |} pending_state
  = kretprobe_do_linkat K h (regs_return 0) pending_state.
Proof.
  intros K pending_state h.
  exact (proj1 (return_probes_agree K h (regs_return 0)
                  {| tp_ret := 2 ^ 32 |} pending_state eq_refl)).
Defined.

Lemma return_probe_after_handled_return_witness :
  let K := test_kernel false DENY_LIST true (fun d => d) [] in
  let pending_state :=
    run K
      (link_prefix (regs_return 0) (regs_vfs_link 1000 2000)
         (helpers 7 10 (Completed 3 64))) idle in
  let st1 :=
    kretprobe_do_linkat K (helpers 0 20 (Completed 2 128)) (regs_return 0)
      pending_state in
  syscalls st1 = None
  /\ kretprobe_link K (helpers 0 30 (Completed 5 160)) (regs_return 0) st1
     = st1.
Proof.
  intros K pending_state st1.
  exact (return_probe_after_handled_return K
           (helpers 0 20 (Completed 2 128)) DR_KPROBE (regs_return 0)
           (helpers 0 30 (Completed 5 160)) DR_KPROBE (regs_return 0)
           (int32 (PT_REGS_RC (regs_return 0))) pending_state eq_refl).
Defined.

Lemma quiet_thread_never_emits_witness :
  let K := test_kernel false DENY_LIST true (fun d => d) [1000] in
  let discarded_state :=
    run K
      (link_prefix (regs_return 0) (regs_vfs_link 1000 2000)
         (helpers 7 10 (Completed 3 64))) idle in
  let ps :=
    [ Kprobe_vfs_link (regs_vfs_link 3000 4000)
        (helpers 9 11 (Completed 4 96));
      Kprobe_do_linkat (regs_return 0);
      Kretprobe_do_linkat (regs_return 0) (helpers 0 20 (Completed 2 128));
      Tracepoint_handle_sys_link_exit {| tp_ret := 0 |}
        (helpers 0 30 (Completed 2 128)) ] in
  events (run K ps discarded_state) = []
  /\ quiet (run K ps discarded_state).
Proof.
  intros K discarded_state ps.
  exact (quiet_thread_never_emits K ps discarded_state eq_refl eq_refl).
Defined.

Lemma source_discarded_by_resolver_silent_witness :
  let K := test_kernel false DENY_LIST true (fun d => d) [] in
  let h_vfs := helpers 7 10 (Completed (-2) 64) in
  let final :=
    run K
      (link_instance (regs_return 0) (regs_vfs_link 1000 2000)
         (regs_return 0) h_vfs (helpers 0 20 (Completed 2 128))
         (helpers 0 30 TailCallFailed)) idle in
  events final = []
  /\ resolver_calls final = 1%nat
  /\ syscalls final = None
  /\ pops final = 1%nat
  /\ invalidations final = [(27, 1000, true)].
Proof.
  intros K h_vfs final.
  assert (Hr : 0 <= int32 (PT_REGS_RC (regs_return 0)))
    by (vm_compute; discriminate).
  destruct (source_discarded_by_resolver_silent K (regs_return 0)
              (regs_vfs_link 1000 2000) (regs_return 0) h_vfs
              (helpers 0 20 (Completed 2 128)) (helpers 0 30 TailCallFailed)
              idle eq_refl eq_refl 64 eq_refl eq_refl eq_refl)
    as (_ & _ & Hev & Hcalls & Hs & Hpops & Hinv).
  split; [exact Hev|]. split; [exact Hcalls|]. split; [exact Hs|].
  split; [exact Hpops | exact (Hinv Hr)].
Defined.

Lemma invalidation_follows_success_witness :
  let K := test_kernel false DENY_LIST true (fun d => d) [] in
  let instance rc :=
    link_instance (regs_return 0) (regs_vfs_link 1000 2000)
      (regs_return rc) (helpers 7 10 (Completed 3 64))
      (helpers 0 20 (Completed 2 128)) (helpers 0 30 TailCallFailed) in
  invalidations (run K (instance (-13)) idle) = []
  /\ invalidations (run K (instance 0) idle) = [(27, 1000, false)].
Proof.
  intros K instance. split.
  - assert (Hr : int32 (PT_REGS_RC (regs_return (-13))) < 0)
      by (vm_compute; reflexivity).
    exact (proj1
             (invalidation_follows_success K (regs_return 0)
                (regs_vfs_link 1000 2000) (regs_return (-13))
                (helpers 7 10 (Completed 3 64))
                (helpers 0 20 (Completed 2 128))
                (helpers 0 30 TailCallFailed) idle eq_refl eq_refl eq_refl)
             Hr).
  - assert (Hr : 0 <= int32 (PT_REGS_RC (regs_return 0)))
      by (vm_compute; discriminate).
    destruct (proj2
                (invalidation_follows_success K (regs_return 0)
                   (regs_vfs_link 1000 2000) (regs_return 0)
                   (helpers 7 10 (Completed 3 64))
                   (helpers 0 20 (Completed 2 128))
                   (helpers 0 30 TailCallFailed) idle eq_refl eq_refl
                   eq_refl)
                Hr) as (sc & Hs & Hinv).
    assert (Hsc : Some sc
                  = syscalls
                      (run K
                         (link_prefix (regs_return 0)
                            (regs_vfs_link 1000 2000)
                            (helpers 7 10 (Completed 3 64))) idle))
      by (symmetry; exact Hs).
    vm_compute in Hsc. injection Hsc as ->. exact Hinv.
Defined.

Lemma handled_failure_is_reported_witness :
  let K := test_kernel false DENY_LIST true (fun d => d) [] in
  let final :=
    run K
      (link_instance (regs_return 0) (regs_vfs_link 1000 2000)
         (regs_return (-13)) (helpers 7 10 (Completed 3 64))
         (helpers 0 20 (Completed 2 128)) (helpers 0 30 TailCallFailed))
      idle in
  (exists ev,
     events final = events idle ++ [ev]
     /\ ev_type ev = EVENT_LINK
     /\ ev_retval ev = int32 (PT_REGS_RC (regs_return (-13))))
  /\ invalidations final = invalidations idle.
Proof.
  intros K final.
  assert (Hr : int32 (PT_REGS_RC (regs_return (-13))) < 0)
    by (vm_compute; reflexivity).
  exact (handled_failure_is_reported K (regs_return 0)
           (regs_vfs_link 1000 2000) (regs_return (-13))
           (helpers 7 10 (Completed 3 64)) (helpers 0 20 (Completed 2 128))
           (helpers 0 30 TailCallFailed) idle eq_refl eq_refl eq_refl
           eq_refl eq_refl eq_refl Hr eq_refl).
Defined.

Lemma emitted_target_layer_flag_witness :
  let K := test_kernel false DENY_LIST true (fun d => d) [] in
  let final :=
    run K
      (link_instance (regs_return 0) (regs_vfs_link 1000 2000)
         (regs_return 0) (helpers 7 10 (Completed 3 64))
         (helpers 0 20 (Completed 2 128)) (helpers 0 30 TailCallFailed))
      idle in
  exists ev,
    events final = [ev]
    /\ f_flags (ev_target ev) = 0
    /\ f_path_ref (ev_target ev) = 128.
Proof.
  intros K final.
  assert (Hev : exists ev, events final = events idle ++ [ev])
    by (eexists; vm_compute; reflexivity).
  destruct Hev as [ev Hev]. exists ev. split; [exact Hev|].
  destruct (emitted_target_layer_flag K (regs_return 0)
              (regs_vfs_link 1000 2000) (regs_return 0)
              (helpers 7 10 (Completed 3 64))
              (helpers 0 20 (Completed 2 128)) (helpers 0 30 TailCallFailed)
              idle eq_refl eq_refl ev eq_refl Hev) as (Hfl & _ & Href).
  split; [exact Hfl | exact Href].
Defined.

Lemma do_linkat_instance_flags_async_witness :
  let K := test_kernel false DENY_LIST true (fun d => d) [] in
  let final :=
    run K
      (do_linkat_instance (regs_return 0) (regs_vfs_link 1000 2000)
         (regs_return 0) (helpers 7 10 (Completed 3 64))
         (helpers 0 20 (Completed 2 128))) idle in
  (exists ev,
     events final = events idle ++ [ev]
     /\ ev_type ev = EVENT_LINK
     /\ ev_flags ev = 1
     /\ ev_retval ev = int32 (PT_REGS_RC (regs_return 0)))
  /\ syscalls final = None
  /\ pushes final = 1%nat
  /\ pops final = 1%nat.
Proof.
  intros K final.
  exact (do_linkat_instance_flags_async K (regs_return 0)
           (regs_vfs_link 1000 2000) (regs_return 0)
           (helpers 7 10 (Completed 3 64)) (helpers 0 20 (Completed 2 128))
           idle eq_refl eq_refl eq_refl eq_refl eq_refl eq_refl eq_refl).
Defined.


End LinkSpec.

(** * Properties of the segmented path resolver *)

Module PathResolverSpec.
Import PathResolver.
Local Open Scope nat_scope.

Section Walk.

Variable E : host.

Lemma step_next_iteration s :
  step E (next_iteration s) = next_iteration (step E s).
Proof.
  unfold step. cbn [next_iteration rs_dentry rs_components rs_discarder_type].
  destruct (dentries E !! rs_dentry s) as [d|]; [|reflexivity].
  destruct (rs_discarder_type s && discarder E (rs_components s ++ [d_name d]));
    [reflexivity|].
  destruct (d_parent d =? rs_dentry s)%Z; [reflexivity|].
  destruct (bool_decide (d_parent d ∈ resolved E)); reflexivity.
Qed.

Lemma walk_next_iteration b s :
  walk E b (next_iteration s) = next_iteration (walk E b s).
Proof.
  revert s. induction b as [|b IH]; intros s; [reflexivity|].
  cbn [walk]. change (is_resolving (next_iteration s)) with (is_resolving s).
  destruct (is_resolving s); [|reflexivity].
  rewrite step_next_iteration. apply IH.
Qed.

Lemma walk_terminal b s : is_resolving s = false -> walk E b s = s.
Proof. intros Hs. destruct b; cbn [walk]; [|rewrite Hs]; reflexivity. Qed.

Lemma steps_terminal b s : is_resolving s = false -> steps E b s = 0.
Proof. intros Hs. destruct b; cbn [steps]; [|rewrite Hs]; reflexivity. Qed.

Lemma walk_add a b s : walk E (a + b) s = walk E b (walk E a s).
Proof.
  revert s. induction a as [|a IH]; intros s; [reflexivity|].
  cbn [Nat.add walk]. destruct (is_resolving s) eqn:Hs; [apply IH|].
  symmetry. apply walk_terminal, Hs.
Qed.

Lemma steps_add a b s :
  steps E (a + b) s = steps E a s + steps E b (walk E a s).
Proof.
  revert s. induction a as [|a IH]; intros s; [reflexivity|].
  cbn [Nat.add walk steps]. destruct (is_resolving s) eqn:Hs.
  - rewrite IH. reflexivity.
  - symmetry. apply steps_terminal, Hs.
Qed.

Lemma steps_le b s : steps E b s <= b.
Proof.
  revert s. induction b as [|b IH]; intros s; cbn [steps]; [lia|].
  destruct (is_resolving s); [specialize (IH (step E s))|]; lia.
Qed.

(** A walk still unfinished has used all its budget. *)
Lemma steps_resolving b s :
  is_resolving (walk E b s) = true -> steps E b s = b.
Proof.
  revert s. induction b as [|b IH]; intros s; cbn [walk steps];
    [reflexivity|].
  destruct (is_resolving s) eqn:Hs.
  - intros Hw. rewrite IH by exact Hw. reflexivity.
  - intros Hw. congruence.
Qed.

(** Before it has processed all its components the walk is unfinished. *)
Lemma walk_short b fuel s :
  b < steps E fuel s -> is_resolving (walk E b s) = true.
Proof.
  revert fuel s. induction b as [|b IH]; intros fuel s Hlt.
  - destruct fuel; cbn [steps] in Hlt; [lia|]. cbn [walk].
    destruct (is_resolving s); [reflexivity | lia].
  - destruct fuel; cbn [steps] in Hlt; [lia|]. cbn [walk].
    destruct (is_resolving s); [|lia].
    apply (IH fuel). lia.
Qed.

(** Once the walk has finished, more budget changes nothing. *)
Lemma walk_enough b fuel s :
  is_resolving (walk E fuel s) = false ->
  steps E fuel s <= b ->
  walk E b s = walk E fuel s.
Proof.
  revert b s. induction fuel as [|fuel IH]; intros b s Hdone Hle.
  - cbn [walk] in *. apply walk_terminal, Hdone.
  - cbn [walk steps] in *. destruct (is_resolving s) eqn:Hs.
    + destruct b; [lia|]. cbn [walk]. rewrite Hs. apply IH; [exact Hdone | lia].
    + apply walk_terminal, Hs.
Qed.

Lemma steps_next_iteration b s :
  steps E b (next_iteration s) = steps E b s.
Proof.
  revert s. induction b as [|b IH]; intros s; [reflexivity|].
  cbn [steps]. change (is_resolving (next_iteration s)) with (is_resolving s).
  destruct (is_resolving s); [|reflexivity].
  rewrite step_next_iteration, IH. reflexivity.
Qed.

Lemma ceil_div_small D B : 1 <= D <= B -> ceil_div D B = 1.
Proof.
  intros HD. unfold ceil_div.
  replace (D + B - 1) with ((D - 1) + 1 * B) by lia.
  rewrite Nat.div_add by lia. rewrite Nat.div_small by lia. reflexivity.
Qed.

Lemma ceil_div_step D B :
  0 < B -> B < D -> ceil_div D B = S (ceil_div (D - B) B).
Proof.
  intros HB HD. unfold ceil_div.
  replace (D + B - 1) with ((D - B + B - 1) + 1 * B) by lia.
  rewrite Nat.div_add by lia. lia.
Qed.

(** The chain of invocations against the single pass: when the single pass
    from [s] finishes after [D] components, [ceil_div D B] invocations end
    in the state the single pass ends in, iteration count apart, and fewer
    invocations leave the walk unfinished. *)
Lemma resolve_single_pass B :
  0 < B ->
  forall D fuel s,
    is_resolving s = true ->
    is_resolving (walk E fuel s) = false ->
    steps E fuel s = D ->
    resolve E B (ceil_div D B) s
    = Nat.iter (ceil_div D B) next_iteration (walk E fuel s)
    /\ forall k, k < ceil_div D B -> is_resolving (resolve E B k s) = true.
Proof.
  intros HB D. induction D as [D IH] using lt_wf_ind.
  intros fuel s Hs Hdone HD.
  assert (Hpos : 1 <= D).
  { destruct fuel; cbn [walk steps] in *; [congruence|].
    rewrite Hs in HD. lia. }
  destruct (le_lt_dec D B) as [Hle|Hlt].
  - rewrite ceil_div_small by lia. split.
    + cbn [resolve Nat.iter]. rewrite Hs, walk_next_iteration.
      f_equal. apply walk_enough; [exact Hdone | lia].
    + intros k Hk. replace k with 0 by lia. exact Hs.
  - rewrite ceil_div_step by lia.
    assert (Hfuel : fuel = B + (fuel - B))
      by (pose proof (steps_le fuel s); lia).
    assert (Hmid : is_resolving (walk E B s) = true)
      by (apply (walk_short B fuel); lia).
    assert (Hrest : steps E (fuel - B) (walk E B s) = D - B).
    { rewrite Hfuel, steps_add in HD.
      rewrite (steps_resolving B s Hmid) in HD. lia. }
    assert (Hwalk : walk E fuel s = walk E (fuel - B) (walk E B s))
      by (rewrite Hfuel at 1; apply walk_add).
    destruct (IH (D - B) ltac:(lia) (fuel - B) (next_iteration (walk E B s)))
      as [Heq Hbefore].
    + exact Hmid.
    + rewrite walk_next_iteration, <- Hwalk. exact Hdone.
    + rewrite steps_next_iteration. exact Hrest.
    + split.
      * cbn [resolve]. rewrite Hs, walk_next_iteration, Heq.
        rewrite walk_next_iteration, <- Hwalk.
        cbn [Nat.iter]. rewrite <- Nat.iter_succ_r. reflexivity.
      * intros [|k] Hk; [exact Hs|].
        cbn [resolve]. rewrite Hs, walk_next_iteration.
        apply Hbefore. lia.
Qed.

Lemma iter_next_iteration n s :
  Nat.iter n next_iteration s
  = {| rs_dentry := rs_dentry s; rs_discarder_type := rs_discarder_type s;
       rs_callback := rs_callback s; rs_iteration := n + rs_iteration s;
       rs_components := rs_components s; rs_status := rs_status s |}.
Proof.
  induction n as [|n IH]; [destruct s; reflexivity|].
  rewrite Nat.iter_succ, IH. reflexivity.
Qed.

Lemma step_iteration s : rs_iteration (step E s) = rs_iteration s.
Proof.
  unfold step. destruct (dentries E !! rs_dentry s) as [d|]; [|reflexivity].
  destruct (rs_discarder_type s && discarder E (rs_components s ++ [d_name d]));
    [reflexivity|].
  destruct (d_parent d =? rs_dentry s)%Z; [reflexivity|].
  destruct (bool_decide (d_parent d ∈ resolved E)); reflexivity.
Qed.

Lemma walk_iteration b s : rs_iteration (walk E b s) = rs_iteration s.
Proof.
  revert s. induction b as [|b IH]; intros s; [reflexivity|].
  cbn [walk]. destruct (is_resolving s); [|reflexivity].
  rewrite IH. apply step_iteration.
Qed.

Lemma resolve_terminal B n s :
  is_resolving s = false -> resolve E B n s = s.
Proof. intros Hs. destruct n; cbn [resolve]; [|rewrite Hs]; reflexivity. Qed.

Lemma resolve_add B a b s :
  resolve E B (a + b) s = resolve E B b (resolve E B a s).
Proof.
  revert s. induction a as [|a IH]; intros s; [reflexivity|].
  cbn [Nat.add resolve]. destruct (is_resolving s) eqn:Hs; [apply IH|].
  symmetry. apply resolve_terminal, Hs.
Qed.

(** The state machine run without budget against the plain recursion over
    the parents: same components, one step per component. *)
Lemma walk_ancestors bound :
  resolved E = ∅ ->
  forall d comps s,
    ancestors E bound d = Some comps ->
    rs_dentry s = d ->
    rs_discarder_type s = false ->
    is_resolving s = true ->
    rs_status (walk E bound s) = DONE
    /\ rs_components (walk E bound s) = rs_components s ++ comps
    /\ steps E bound s = length comps.
Proof.
  intros Hcache. induction bound as [|bound IH];
    intros d comps s Ha Hd Hdt Hs; [discriminate|].
  cbn [ancestors] in Ha. cbn [walk steps]. rewrite Hs.
  assert (Hstep : step E s
    = match dentries E !! d with
      | None => with_walk d (rs_components s) ERROR s
      | Some de =>
          if (d_parent de =? d)%Z
          then with_walk d (rs_components s ++ [d_name de]) DONE s
          else with_walk (d_parent de) (rs_components s ++ [d_name de])
                 RESOLVING s
      end).
  { unfold step. rewrite Hd, Hdt, Hcache.
    destruct (dentries E !! d) as [de|]; [|reflexivity].
    cbn [andb]. destruct (d_parent de =? d)%Z; reflexivity. }
  rewrite Hstep. destruct (dentries E !! d) as [de|]; [|discriminate].
  destruct (d_parent de =? d)%Z.
  - injection Ha as <-.
    rewrite walk_terminal, steps_terminal by reflexivity. auto.
  - destruct (ancestors E bound (d_parent de)) as [rest|] eqn:Hrest;
      [|discriminate].
    injection Ha as <-.
    destruct (IH (d_parent de) rest
                (with_walk (d_parent de) (rs_components s ++ [d_name de])
                   RESOLVING s) Hrest eq_refl Hdt eq_refl)
      as (Hst & Hc & Hn).
    rewrite Hst, Hc, Hn. cbn [with_walk rs_components length].
    rewrite <- app_assoc. auto.
Qed.

End Walk.

(** The chain of invocations against the plain recursion over the parents:
    for a path of [D] components, [D] greater than the budget [B], and a
    host with nothing in its resolution cache, the resolver started without
    discarder ends DONE in [ceil_div D B] invocations, not before, with the
    components of the recursion in the same order. *)
Theorem segmented_walk_yields_ancestors (E : host) (B bound : nat) (d : Z)
  (callback : nat) (comps : list string) :
  resolved E = ∅ ->
  ancestors E bound d = Some comps ->
  0 < B ->
  B < length comps ->
  let n := ceil_div (length comps) B in
  let s0 := start d false callback in
  rs_status (resolve E B n s0) = DONE
  /\ rs_components (resolve E B n s0) = comps
  /\ rs_iteration (resolve E B n s0) = n
  /\ (forall k, k < n -> rs_status (resolve E B k s0) = RESOLVING).
Proof.
  intros Hcache Ha HB HD n s0.
  destruct (walk_ancestors E bound Hcache d comps s0 Ha eq_refl eq_refl
              eq_refl) as (Hst & Hc & Hn).
  assert (Hdone : is_resolving (walk E bound s0) = false)
    by (unfold is_resolving; rewrite Hst; reflexivity).
  destruct (resolve_single_pass E B HB (length comps) bound s0 eq_refl Hdone
              Hn) as [Heq Hbefore].
  fold n in Heq, Hbefore.
  rewrite Heq, iter_next_iteration.
  cbn [rs_status rs_components rs_iteration].
  rewrite Hst, Hc, walk_iteration. cbn [s0 start rs_components rs_iteration].
  repeat split; [lia|].
  intros k Hk. specialize (Hbefore k Hk). unfold is_resolving in Hbefore.
  destruct (rs_status (resolve E B k s0)); congruence.
Qed.

Lemma segmented_walk_yields_ancestors_witness :
  let s0 := start 5 false 0 in
  ancestors deep_host 10 5 = Some ["d"; "c"; "b"; "a"; "/"]%string
  /\ rs_status (resolve deep_host 2 3 s0) = DONE
  /\ rs_components (resolve deep_host 2 3 s0)
     = ["d"; "c"; "b"; "a"; "/"]%string
  /\ rs_iteration (resolve deep_host 2 3 s0) = 3.
Proof.
  intros s0.
  assert (Ha : ancestors deep_host 10 5 = Some ["d"; "c"; "b"; "a"; "/"]%string)
    by (vm_compute; reflexivity).
  assert (HB : 0 < 2) by lia.
  assert (HD : 2 < length ["d"; "c"; "b"; "a"; "/"]%string) by (cbn; lia).
  destruct (segmented_walk_yields_ancestors deep_host 2 10 5 0 _ eq_refl Ha
              HB HD) as (Hst & Hc & Hit & _).
  split; [exact Ha|]. split; [exact Hst|]. split; [exact Hc | exact Hit].
Defined.

(** C6. The resolver is handed the record of a hook (iteration 0, nothing
    accumulated) for a path whose unbounded single-pass walk finishes after
    [D] components, [D] greater than the budget [B] of one invocation. Then
    the chain of invocations reaches a terminal state with the invocation
    numbered [ceil_div D B], not before, and it ends in the terminal state
    of the single pass with the same components in the same order. *)
Theorem segmented_walk_refines_single_pass (E : host) (B fuel : nat)
  (d : Z) (discarder_type : bool) (callback : nat) :
  let s0 := start d discarder_type callback in
  let single := walk E fuel s0 in
  let D := steps E fuel s0 in
  let n := ceil_div D B in
  0 < B ->
  B < D ->
  is_resolving single = false ->
  rs_status (resolve E B n s0) = rs_status single
  /\ rs_components (resolve E B n s0) = rs_components single
  /\ rs_dentry (resolve E B n s0) = rs_dentry single
  /\ rs_iteration (resolve E B n s0) = n
  /\ (forall k, k < n -> rs_status (resolve E B k s0) = RESOLVING)
  /\ (forall k, n <= k -> resolve E B k s0 = resolve E B n s0).
Proof.
  intros s0 single D n HB HD Hdone.
  destruct (resolve_single_pass E B HB D fuel s0 eq_refl Hdone eq_refl)
    as [Heq Hbefore].
  fold n in Heq, Hbefore. fold single in Heq.
  assert (Hend : is_resolving (resolve E B n s0) = false).
  { rewrite Heq, iter_next_iteration. exact Hdone. }
  split; [rewrite Heq, iter_next_iteration; reflexivity|].
  split; [rewrite Heq, iter_next_iteration; reflexivity|].
  split; [rewrite Heq, iter_next_iteration; reflexivity|].
  split.
  { rewrite Heq, iter_next_iteration. cbn [rs_iteration].
    subst single. rewrite walk_iteration. cbn. lia. }
  split.
  - intros k Hk. specialize (Hbefore k Hk). unfold is_resolving in Hbefore.
    destruct (rs_status (resolve E B k s0)); congruence.
  - intros k Hk. replace k with (n + (k - n)) by lia.
    rewrite resolve_add. apply resolve_terminal, Hend.
Qed.

Lemma segmented_walk_refines_single_pass_witness :
  let s0 := start 5 false 0 in
  rs_status (resolve deep_host 2 3 s0) = DONE
  /\ rs_components (resolve deep_host 2 3 s0)
     = ["d"; "c"; "b"; "a"; "/"]%string
  /\ rs_components (walk deep_host 100 s0)
     = ["d"; "c"; "b"; "a"; "/"]%string
  /\ rs_iteration (resolve deep_host 2 3 s0) = 3
  /\ rs_status (resolve deep_host 2 2 s0) = RESOLVING.
Proof.
  intros s0.
  assert (HB : 0 < 2) by lia.
  assert (HD : 2 < steps deep_host 100 s0) by (vm_compute; lia).
  destruct (segmented_walk_refines_single_pass deep_host 2 100 5 false 0
              HB HD eq_refl)
    as (Hst & Hc & _ & Hit & Hbefore & _).
  change (ceil_div (steps deep_host 100 (start 5 false 0)) 2) with 3
    in Hst, Hc, Hit, Hbefore.
  fold s0 in Hst, Hc, Hit, Hbefore.
  split; [rewrite Hst; reflexivity|].
  split; [rewrite Hc; reflexivity|].
  split; [reflexivity|].
  split; [exact Hit|].
  apply Hbefore. lia.
Defined.

End PathResolverSpec.

(** * Properties of the HTTP buffer capture *)

Module HttpBufferSpec.
Import HttpBuffer.

Lemma lookup_write_bytes mem n f (i : nat) :
  write_bytes mem n f !! i
  = (fun b => if Z.of_nat i <? n then f i else b) <$> mem !! i.
Proof. unfold write_bytes. apply list_lookup_imap. Qed.

Lemma length_write_bytes mem n f : length (write_bytes mem n f) = length mem.
Proof. unfold write_bytes. apply length_imap. Qed.

Lemma lookup_read_user_outside mem size src (i : nat) :
  size <= Z.of_nat i ->
  snd (bpf_probe_read_user mem size src) !! i = mem !! i.
Proof.
  intros Hi. unfold bpf_probe_read_user.
  destruct (size <=? Z.of_nat (length src)); cbn [snd];
    rewrite lookup_write_bytes;
    destruct (Z.ltb_spec (Z.of_nat i) size); try lia;
    destruct (mem !! i); reflexivity.
Qed.

Section Bounded.

Variable HTTP_BUFFER_SIZE : Z.
Hypothesis size_range : 0 < HTTP_BUFFER_SIZE < 2 ^ 32.

Lemma read_size_bounded data_size :
  1 <= data_size ->
  read_size HTTP_BUFFER_SIZE data_size
  = Z.min data_size HTTP_BUFFER_SIZE - 1
  /\ 0 <= read_size HTTP_BUFFER_SIZE data_size <= HTTP_BUFFER_SIZE - 1.
Proof.
  intros Hd. unfold read_size, final_size, u32.
  destruct (Z.ltb_spec data_size HTTP_BUFFER_SIZE).
  - rewrite (Z.mod_small data_size) by lia.
    rewrite Z.mod_small by lia. lia.
  - rewrite (Z.mod_small HTTP_BUFFER_SIZE) by lia.
    rewrite Z.mod_small by lia. lia.
Qed.

(** For a size of at least one byte the copy is bounded: at most
    [HTTP_BUFFER_SIZE - 1] bytes are asked of the helper, memory past the
    buffer keeps its bytes, the last byte of the buffer is zero, and the
    bytes in front are the user's when they can be read. *)
Theorem read_into_buffer_bounded errors (buffer : memory) (data : list byte)
  data_size :
  1 <= data_size ->
  HTTP_BUFFER_SIZE <= Z.of_nat (length buffer) ->
  let after := fst (read_into_buffer HTTP_BUFFER_SIZE errors buffer data
                      data_size) in
  read_size HTTP_BUFFER_SIZE data_size <= HTTP_BUFFER_SIZE - 1
  /\ length after = length buffer
  /\ (forall i : nat, HTTP_BUFFER_SIZE <= Z.of_nat i ->
        after !! i = buffer !! i)
  /\ after !! Z.to_nat (HTTP_BUFFER_SIZE - 1) = Some x00
  /\ (forall i : nat,
        read_size HTTP_BUFFER_SIZE data_size <= Z.of_nat i
        < HTTP_BUFFER_SIZE ->
        after !! i = Some x00)
  /\ (read_size HTTP_BUFFER_SIZE data_size <= Z.of_nat (length data) ->
      forall i : nat,
        Z.of_nat i < read_size HTTP_BUFFER_SIZE data_size ->
        after !! i = data !! i).
Proof.
  intros Hd Hlen after.
  destruct (read_size_bounded data_size Hd) as [_ Hsize].
  assert (Hafter : after
    = snd (bpf_probe_read_user (bpf_memset buffer x00 HTTP_BUFFER_SIZE)
             (read_size HTTP_BUFFER_SIZE data_size) data)).
  { subst after. unfold read_into_buffer, bpf_probe_read_user_with_telemetry.
    fold (read_size HTTP_BUFFER_SIZE data_size).
    destruct (bpf_probe_read_user _ _ _). reflexivity. }
  assert (Hzero : forall i : nat,
    read_size HTTP_BUFFER_SIZE data_size <= Z.of_nat i < HTTP_BUFFER_SIZE ->
    after !! i = Some x00).
  { intros i Hi. rewrite Hafter, lookup_read_user_outside by lia.
    unfold bpf_memset. rewrite lookup_write_bytes.
    destruct (lookup_lt_is_Some_2 buffer i ltac:(lia)) as [b ->].
    cbn. destruct (Z.ltb_spec (Z.of_nat i) HTTP_BUFFER_SIZE); [reflexivity|lia]. }
  split; [lia|]. split.
  { rewrite Hafter. unfold bpf_probe_read_user, bpf_memset.
    destruct (_ <=? _); cbn [snd]; rewrite !length_write_bytes; reflexivity. }
  split.
  { intros i Hi. rewrite Hafter, lookup_read_user_outside by lia.
    unfold bpf_memset. rewrite lookup_write_bytes.
    destruct (Z.ltb_spec (Z.of_nat i) HTTP_BUFFER_SIZE); [lia|].
    destruct (buffer !! i); reflexivity. }
  split; [apply Hzero; lia|]. split; [exact Hzero|].
  intros Hreadable i Hi. rewrite Hafter. unfold bpf_probe_read_user.
  apply Z.leb_le in Hreadable. rewrite Hreadable. cbn [snd].
  rewrite lookup_write_bytes. unfold bpf_memset. rewrite lookup_write_bytes.
  destruct (lookup_lt_is_Some_2 buffer i ltac:(lia)) as [b ->].
  cbn. destruct (Z.ltb_spec (Z.of_nat i) (read_size HTTP_BUFFER_SIZE data_size));
    [|lia].
  apply Z.leb_le in Hreadable.
  destruct (lookup_lt_is_Some_2 data i ltac:(lia)) as [c Hc].
  rewrite Hc. f_equal. apply nth_lookup_Some with (d := x00) in Hc. exact Hc.
Qed.

End Bounded.

(** C9, on the input where it fails: [data_size] is 0. [final_size - 1]
    wraps around to 4294967295, the helper is asked for that many bytes,
    and the two bytes that follow the 160-byte buffer are overwritten. *)
Theorem read_into_buffer_zero_size_overruns :
  let buffer := replicate 160 xff ++ [xaa; xbb] in
  let after := fst (read_into_buffer 160 0 buffer [] 0) in
  read_size 160 0 = 4294967295
  /\ buffer !! 160%nat = Some xaa
  /\ after !! 160%nat = Some x00
  /\ buffer !! 161%nat = Some xbb
  /\ after !! 161%nat = Some x00.
Proof. cbv zeta. repeat split; vm_compute; reflexivity. Qed.

Lemma read_into_buffer_bounded_witness :
  let buffer := replicate 160 xff ++ [xaa; xbb] in
  let data := [x47; x45; x54; x20; x2f] in
  let after := fst (read_into_buffer 160 0 buffer data 5) in
  read_size 160 5 <= 160 - 1
  /\ after !! 160%nat = Some xaa
  /\ after !! 159%nat = Some x00
  /\ after !! 0%nat = Some x47
  /\ after !! 4%nat = Some x00.
Proof.
  intros buffer data after.
  assert (Hrange : 0 < 160 < 2 ^ 32) by lia.
  assert (Hd : 1 <= 5) by lia.
  assert (Hlen : 160 <= Z.of_nat (length buffer)) by (vm_compute; discriminate).
  destruct (read_into_buffer_bounded 160 Hrange 0%nat buffer data 5 Hd Hlen)
    as (Hsize & _ & Hout & Hlast & Hzero & Hcopy).
  fold after in Hout, Hlast, Hzero, Hcopy.
  split; [exact Hsize|].
  split; [rewrite (Hout 160%nat) by lia; reflexivity|].
  split; [exact Hlast|].
  split.
  - rewrite (Hcopy ltac:(vm_compute; discriminate) 0%nat)
      by (vm_compute; reflexivity).
    reflexivity.
  - apply Hzero. vm_compute. split; [discriminate | reflexivity].
Defined.

(** ** Unreadable user memory *)

Section Unreadable.

Variable HTTP_BUFFER_SIZE : Z.
Hypothesis size_range : 0 < HTTP_BUFFER_SIZE < 2 ^ 32.

(** When the user memory holds fewer readable bytes than
    [read_into_buffer] asks for, nothing of it reaches the buffer: the
    whole buffer is zero, memory past it is unchanged and one error is
    counted; when it holds enough, no error is counted. *)
Theorem read_into_buffer_unreadable errors (buffer : memory)
  (data : list byte) data_size :
  1 <= data_size ->
  HTTP_BUFFER_SIZE <= Z.of_nat (length buffer) ->
  let r := read_into_buffer HTTP_BUFFER_SIZE errors buffer data data_size in
  (Z.of_nat (length data) < read_size HTTP_BUFFER_SIZE data_size ->
   (forall i : nat, Z.of_nat i < HTTP_BUFFER_SIZE -> fst r !! i = Some x00)
   /\ (forall i : nat, HTTP_BUFFER_SIZE <= Z.of_nat i ->
         fst r !! i = buffer !! i)
   /\ snd r = S errors)
  /\ (read_size HTTP_BUFFER_SIZE data_size <= Z.of_nat (length data) ->
      snd r = errors).
Proof.
  intros Hd Hlen r.
  destruct (read_size_bounded HTTP_BUFFER_SIZE size_range data_size Hd)
    as [_ Hsize].
  subst r. unfold read_into_buffer, bpf_probe_read_user_with_telemetry,
    bpf_probe_read_user, bpf_memset.
  fold (read_size HTTP_BUFFER_SIZE data_size).
  destruct (Z.leb_spec (read_size HTTP_BUFFER_SIZE data_size)
              (Z.of_nat (length data))) as [Hok|Hfault]; cbn [fst snd].
  - split; [intros; lia | reflexivity].
  - split; [|intros; lia]. intros _. split; [|split; [|reflexivity]].
    + intros i Hi. rewrite !lookup_write_bytes.
      destruct (lookup_lt_is_Some_2 buffer i ltac:(lia)) as [b ->]. cbn.
      destruct (Z.ltb_spec (Z.of_nat i) HTTP_BUFFER_SIZE); [|lia].
      destruct (Z.ltb_spec (Z.of_nat i)
                  (read_size HTTP_BUFFER_SIZE data_size)); reflexivity.
    + intros i Hi. rewrite !lookup_write_bytes.
      destruct (buffer !! i) as [b|]; [|reflexivity]. cbn.
      destruct (Z.ltb_spec (Z.of_nat i) HTTP_BUFFER_SIZE); [lia|].
      destruct (Z.ltb_spec (Z.of_nat i)
                  (read_size HTTP_BUFFER_SIZE data_size)); [lia|].
      reflexivity.
Qed.

End Unreadable.

(** ** The classification variant *)

Lemma write_bytes_one (b : byte) (mem : memory) f :
  write_bytes (b :: mem) 1 f = f 0%nat :: mem.
Proof.
  unfold write_bytes. rewrite imap_cons. cbn. f_equal.
  rewrite <- (list_fmap_id mem) at 2. rewrite <- imap_const.
  apply imap_ext. intros i x _. cbn.
  destruct (Z.ltb_spec (Z.of_nat (S i)) 1); [lia | reflexivity].
Qed.

(** One byte read at offset [i]: the user's byte when it can be read, zero
    otherwise. *)
Lemma read_byte_at_insert (buffer : memory) (data : list byte) (i : nat) :
  (i < length buffer)%nat ->
  read_byte_at buffer data i = <[i := default x00 (data !! i)]> buffer.
Proof.
  intros Hi. unfold read_byte_at, bpf_probe_read_user.
  destruct (lookup_lt_is_Some_2 buffer i Hi) as [b Hb].
  rewrite (drop_S buffer b i Hb), insert_take_drop by exact Hi.
  f_equal. rewrite length_drop.
  destruct (data !! i) as [c|] eqn:Hc.
  - assert (i < length data)%nat by (apply lookup_lt_is_Some; eauto).
    destruct (Z.leb_spec 1 (Z.of_nat (length data - i))); [|lia].
    cbn [snd]. rewrite write_bytes_one. f_equal.
    rewrite (drop_S data c i Hc). reflexivity.
  - apply lookup_ge_None in Hc.
    destruct (Z.leb_spec 1 (Z.of_nat (length data - i))); [lia|].
    cbn [snd]. rewrite write_bytes_one. reflexivity.
Qed.

Lemma classification_loop_spec (data : list byte) count :
  forall i (buffer : memory),
    (i + count <= length buffer)%nat ->
    let k := cstr_len count (drop i data) in
    let r := classification_loop count i buffer data in
    length r = length buffer
    /\ (forall j, (j < i)%nat -> r !! j = buffer !! j)
    /\ (forall j, (i <= j < i + k)%nat -> r !! j = data !! j)
    /\ ((k < count)%nat -> r !! (i + k)%nat = Some x00)
    /\ (forall j, (i + k < j)%nat -> r !! j = buffer !! j)
    /\ (forall j, (i + count <= j)%nat -> r !! j = buffer !! j).
Proof.
  induction count as [|count IH]; intros i buffer Hlen k r.
  - subst k r. cbn. repeat split; try lia; auto.
  - subst r. cbn [classification_loop].
    rewrite read_byte_at_insert by lia.
    set (v := default x00 (data !! i)).
    assert (Hnth : nth i (<[i:=v]> buffer) x00 = v).
    { apply nth_lookup_Some with (d := x00).
      apply list_lookup_insert_eq. lia. }
    rewrite Hnth.
    destruct (Byte.eqb v x00) eqn:Hv.
    + apply Byte.byte_dec_bl in Hv.
      assert (Hk : k = 0%nat).
      { subst k. destruct (data !! i) as [c|] eqn:Hc.
        - rewrite (drop_S data c i Hc). cbn. cbn in Hv. subst v.
          cbn in Hv. rewrite Hv. reflexivity.
        - apply lookup_ge_None in Hc. rewrite drop_ge by lia.
          reflexivity. }
      rewrite Hk, Nat.add_0_r. rewrite length_insert.
      repeat split; try lia.
      * intros j Hj. apply list_lookup_insert_ne. lia.
      * intros _. rewrite Hv in *. apply list_lookup_insert_eq. lia.
      * intros j Hj. apply list_lookup_insert_ne. lia.
      * intros j Hj. apply list_lookup_insert_ne. lia.
    + assert (Hc : data !! i = Some v).
      { subst v. destruct (data !! i); [reflexivity|]. cbn in Hv.
        discriminate. }
      assert (Hk : k = S (cstr_len count (drop (S i) data))).
      { subst k. rewrite (drop_S data v i Hc). cbn [cstr_len].
        rewrite Hv. reflexivity. }
      destruct (IH (S i) (<[i:=v]> buffer)) as (Hl & Hlo & Hmid & Hz & Hhi & Hout).
      { rewrite length_insert. lia. }
      rewrite Hk. rewrite length_insert in Hl.
      split; [exact Hl|]. split.
      { intros j Hj. rewrite Hlo by lia. apply list_lookup_insert_ne. lia. }
      split.
      { intros j Hj. destruct (Nat.eq_dec j i) as [->|Hne].
        - rewrite Hlo by lia. rewrite Hc. apply list_lookup_insert_eq. lia.
        - apply Hmid. lia. }
      split.
      { intros Hlt. replace (i + S (cstr_len count (drop (S i) data)))%nat
          with (S i + cstr_len count (drop (S i) data))%nat by lia.
        apply Hz. lia. }
      split.
      { intros j Hj. rewrite Hhi by lia. apply list_lookup_insert_ne. lia. }
      intros j Hj. rewrite Hout by lia. apply list_lookup_insert_ne. lia.
Qed.

Section ClassificationFacts.

Variable CLASSIFICATION_MAX_BUFFER : Z.
Hypothesis max_range : 0 < CLASSIFICATION_MAX_BUFFER < 2 ^ 32.

Let count : nat := Z.to_nat (CLASSIFICATION_MAX_BUFFER - 1).

Lemma classification_read_size :
  u32 (CLASSIFICATION_MAX_BUFFER - 1) = Z.of_nat count.
Proof. unfold u32, count. rewrite Z.mod_small by lia. lia. Qed.

(** The buffer after the [bpf_memset] and the bulk read, and the result of
    that read. *)
Lemma classification_bulk errors (buffer : memory) (data : list byte) :
  CLASSIFICATION_MAX_BUFFER <= Z.of_nat (length buffer) ->
  let r :=
    bpf_probe_read_user_with_telemetry errors
      (bpf_memset buffer x00 CLASSIFICATION_MAX_BUFFER)
      (u32 (CLASSIFICATION_MAX_BUFFER - 1)) data in
  length (fst (snd r)) = length buffer
  /\ (forall i : nat, CLASSIFICATION_MAX_BUFFER <= Z.of_nat i ->
        fst (snd r) !! i = buffer !! i)
  /\ (forall i : nat, (count <= i)%nat ->
        Z.of_nat i < CLASSIFICATION_MAX_BUFFER ->
        fst (snd r) !! i = Some x00)
  /\ ((count <= length data)%nat ->
      (fst r <? 0) = false /\ snd (snd r) = errors
      /\ forall i : nat, (i < count)%nat -> fst (snd r) !! i = data !! i)
  /\ ((length data < count)%nat ->
      (fst r <? 0) = true /\ snd (snd r) = S errors
      /\ forall i : nat, Z.of_nat i < CLASSIFICATION_MAX_BUFFER ->
            fst (snd r) !! i = Some x00).
Proof.
  intros Hlen r. subst r.
  unfold bpf_probe_read_user_with_telemetry, bpf_probe_read_user, bpf_memset.
  rewrite classification_read_size.
  assert (Hz : forall i : nat, Z.of_nat i < CLASSIFICATION_MAX_BUFFER ->
    write_bytes buffer CLASSIFICATION_MAX_BUFFER (fun _ => x00) !! i
    = Some x00).
  { intros i Hi. rewrite lookup_write_bytes.
    destruct (lookup_lt_is_Some_2 buffer i ltac:(lia)) as [b ->]. cbn.
    destruct (Z.ltb_spec (Z.of_nat i) CLASSIFICATION_MAX_BUFFER);
      [reflexivity | lia]. }
  assert (Hb : forall i : nat, CLASSIFICATION_MAX_BUFFER <= Z.of_nat i ->
    write_bytes buffer CLASSIFICATION_MAX_BUFFER (fun _ => x00) !! i
    = buffer !! i).
  { intros i Hi. rewrite lookup_write_bytes.
    destruct (Z.ltb_spec (Z.of_nat i) CLASSIFICATION_MAX_BUFFER); [lia|].
    destruct (buffer !! i); reflexivity. }
  assert (Hcount : Z.of_nat count = CLASSIFICATION_MAX_BUFFER - 1)
    by (unfold count; lia).
  destruct (Z.leb_spec (Z.of_nat count) (Z.of_nat (length data)))
    as [Hok|Hfault]; cbn [fst snd].
  - split; [rewrite !length_write_bytes; reflexivity|].
    split.
    { intros i Hi. rewrite lookup_write_bytes, Hb by lia.
      destruct (Z.ltb_spec (Z.of_nat i) (Z.of_nat count)); [lia|].
      destruct (buffer !! i); reflexivity. }
    split.
    { intros i Hi Hi'. rewrite lookup_write_bytes, Hz by lia. cbn.
      destruct (Z.ltb_spec (Z.of_nat i) (Z.of_nat count));
        [lia | reflexivity]. }
    split; [|intros; lia].
    intros _. repeat split.
    intros i Hi. rewrite lookup_write_bytes, Hz by lia. cbn.
    destruct (Z.ltb_spec (Z.of_nat i) (Z.of_nat count)); [|lia].
    destruct (lookup_lt_is_Some_2 data i ltac:(lia)) as [c Hc].
    rewrite Hc. f_equal. apply nth_lookup_Some with (d := x00) in Hc.
    exact Hc.
  - split; [rewrite !length_write_bytes; reflexivity|].
    split.
    { intros i Hi. rewrite lookup_write_bytes, Hb by lia.
      destruct (Z.ltb_spec (Z.of_nat i) (Z.of_nat count)); [lia|].
      destruct (buffer !! i); reflexivity. }
    split.
    { intros i Hi Hi'. rewrite lookup_write_bytes, Hz by lia. cbn.
      destruct (Z.ltb_spec (Z.of_nat i) (Z.of_nat count)); reflexivity. }
    split; [intros; lia|].
    intros _. repeat split.
    intros i Hi. rewrite lookup_write_bytes, Hz by lia. cbn.
    destruct (Z.ltb_spec (Z.of_nat i) (Z.of_nat count)); reflexivity.
Qed.

(** Whatever the user memory holds and whatever [data_size] is, the copy
    stays inside the buffer and the buffer ends on a zero byte. *)
Theorem read_into_buffer_classification_bounded errors (buffer : memory)
  (data : list byte) data_size :
  CLASSIFICATION_MAX_BUFFER <= Z.of_nat (length buffer) ->
  let after :=
    fst (read_into_buffer_classification CLASSIFICATION_MAX_BUFFER errors
           buffer data data_size) in
  length after = length buffer
  /\ (forall i : nat, CLASSIFICATION_MAX_BUFFER <= Z.of_nat i ->
        after !! i = buffer !! i)
  /\ after !! count = Some x00.
Proof.
  intros Hlen after. subst after. unfold read_into_buffer_classification.
  destruct (classification_bulk errors buffer data Hlen)
    as (Hl & Hout & Hlast & Hok & Hfault).
  destruct (bpf_probe_read_user_with_telemetry errors _ _ data)
    as [ret [mem errs]]. cbn [fst snd] in *.
  assert (Hcount : Z.of_nat count = CLASSIFICATION_MAX_BUFFER - 1)
    by (unfold count; lia).
  destruct (le_lt_dec count (length data)) as [Hd|Hd].
  - destruct (Hok Hd) as (-> & _ & _). cbn [fst].
    split; [exact Hl|]. split; [exact Hout|]. apply Hlast; lia.
  - destruct (Hfault Hd) as (-> & _ & Hzero). cbn [fst]. fold count.
    destruct (classification_loop_spec data count 0%nat mem ltac:(lia))
      as (Hl' & _ & _ & _ & _ & Hout').
    split; [lia|].
    split; [intros i Hi; rewrite Hout' by lia; apply Hout, Hi|].
    rewrite Hout' by lia. apply Hzero. lia.
Qed.

(** When the user memory holds at least [CLASSIFICATION_MAX_BUFFER - 1]
    readable bytes, the bulk read succeeds: these bytes are copied, the
    loop is not entered and no error is counted. *)
Theorem read_into_buffer_classification_readable errors (buffer : memory)
  (data : list byte) data_size :
  CLASSIFICATION_MAX_BUFFER <= Z.of_nat (length buffer) ->
  (count <= length data)%nat ->
  let r :=
    read_into_buffer_classification CLASSIFICATION_MAX_BUFFER errors buffer
      data data_size in
  (forall i : nat, (i < count)%nat -> fst r !! i = data !! i)
  /\ snd r = errors.
Proof.
  intros Hlen Hd r. subst r. unfold read_into_buffer_classification.
  destruct (classification_bulk errors buffer data Hlen)
    as (_ & _ & _ & Hok & _).
  destruct (bpf_probe_read_user_with_telemetry errors _ _ data)
    as [ret [mem errs]]. cbn [fst snd] in *.
  destruct (Hok Hd) as (-> & -> & Hcopy). cbn [fst snd]. auto.
Qed.

(** When fewer bytes can be read, the bulk read fails, one error is
    counted, and the loop copies the C string the user memory starts with:
    the bytes in front of its first zero byte, or of the first byte that
    cannot be read; the rest of the buffer is zero. *)
Theorem read_into_buffer_classification_fallback errors (buffer : memory)
  (data : list byte) data_size :
  CLASSIFICATION_MAX_BUFFER <= Z.of_nat (length buffer) ->
  (length data < count)%nat ->
  let r :=
    read_into_buffer_classification CLASSIFICATION_MAX_BUFFER errors buffer
      data data_size in
  let k := cstr_len count data in
  (forall i : nat, (i < k)%nat -> fst r !! i = data !! i)
  /\ (forall i : nat, (k <= i)%nat ->
        Z.of_nat i < CLASSIFICATION_MAX_BUFFER -> fst r !! i = Some x00)
  /\ snd r = S errors.
Proof.
  intros Hlen Hd r k. subst r. unfold read_into_buffer_classification.
  destruct (classification_bulk errors buffer data Hlen)
    as (Hl & _ & _ & _ & Hfault).
  destruct (bpf_probe_read_user_with_telemetry errors _ _ data)
    as [ret [mem errs]]. cbn [fst snd] in *.
  destruct (Hfault Hd) as (-> & -> & Hzero). cbn [fst snd]. fold count.
  assert (Hcount : Z.of_nat count = CLASSIFICATION_MAX_BUFFER - 1)
    by (unfold count; lia).
  pose proof (classification_loop_spec data count 0%nat mem ltac:(lia))
    as Hspec.
  cbv zeta in Hspec. rewrite !drop_0 in Hspec. cbn [Nat.add] in Hspec.
  fold k in Hspec.
  destruct Hspec as (_ & _ & Hmid & Hz & Hhi & _).
  assert (Hk : (k <= length data)%nat).
  { subst k. clear. generalize count. induction data as [|b l IH];
      intros [|c]; cbn; try lia.
    destruct (Byte.eqb b x00); [lia|]. specialize (IH c). lia. }
  split; [intros i Hi; apply Hmid; lia|].
  split; [|reflexivity].
  intros i Hi Hi'. destruct (Nat.eq_dec i k) as [->|Hne].
  - apply Hz. lia.
  - rewrite Hhi by lia. apply Hzero, Hi'.
Qed.

End ClassificationFacts.


(** ** The classification variant on explicit inputs *)

Lemma read_into_buffer_classification_bounded_witness :
  let buffer := replicate 8 xff ++ [xaa] in
  let after :=
    fst (read_into_buffer_classification 8 0 buffer [x47; x45; x54] 3) in
  length after = length buffer
  /\ after !! 8%nat = Some xaa
  /\ after !! 7%nat = Some x00.
Proof.
  intros buffer after. subst after.
  assert (Hrange : 0 < 8 < 2 ^ 32) by lia.
  assert (Hlen : 8 <= Z.of_nat (length buffer)) by (vm_compute; discriminate).
  destruct (read_into_buffer_classification_bounded 8 Hrange 0%nat buffer
              [x47; x45; x54] 3 Hlen) as (Hl & Hout & Hlast).
  split; [exact Hl|]. split; [|exact Hlast].
  rewrite (Hout 8%nat) by lia. reflexivity.
Defined.

Lemma read_into_buffer_classification_readable_witness :
  let buffer := replicate 8 xff ++ [xaa] in
  let data := [x47; x45; x54; x20; x2f; x61; x62; x63] in
  let r := read_into_buffer_classification 8 0 buffer data 8 in
  fst r !! 0%nat = Some x47
  /\ fst r !! 6%nat = Some x62
  /\ snd r = 0%nat.
Proof.
  intros buffer data r. subst r.
  assert (Hrange : 0 < 8 < 2 ^ 32) by lia.
  assert (Hlen : 8 <= Z.of_nat (length buffer)) by (vm_compute; discriminate).
  assert (Hd : (Z.to_nat (8 - 1) <= length data)%nat) by (vm_compute; lia).
  destruct (read_into_buffer_classification_readable 8 Hrange 0%nat buffer
              data 8 Hlen Hd) as (Hcopy & Herr).
  split; [|split; [|exact Herr]].
  - rewrite (Hcopy 0%nat) by (vm_compute; lia). reflexivity.
  - rewrite (Hcopy 6%nat) by (vm_compute; lia). reflexivity.
Defined.

Lemma read_into_buffer_classification_fallback_witness :
  let buffer := replicate 8 xff ++ [xaa] in
  let data := [x47; x45; x00; x54] in
  let r := read_into_buffer_classification 8 0 buffer data 4 in
  cstr_len (Z.to_nat (8 - 1)) data = 2%nat
  /\ fst r !! 0%nat = Some x47
  /\ fst r !! 1%nat = Some x45
  /\ fst r !! 2%nat = Some x00
  /\ fst r !! 3%nat = Some x00
  /\ snd r = 1%nat.
Proof.
  intros buffer data r. subst r.
  assert (Hrange : 0 < 8 < 2 ^ 32) by lia.
  assert (Hlen : 8 <= Z.of_nat (length buffer)) by (vm_compute; discriminate).
  assert (Hd : (length data < Z.to_nat (8 - 1))%nat) by (vm_compute; lia).
  assert (Hk : cstr_len (Z.to_nat (8 - 1)) data = 2%nat)
    by (vm_compute; reflexivity).
  destruct (read_into_buffer_classification_fallback 8 Hrange 0%nat buffer
              data 4 Hlen Hd) as (Hcopy & Hzero & Herr).
  rewrite Hk in Hcopy, Hzero.
  split; [exact Hk|].
  split; [rewrite (Hcopy 0%nat) by lia; reflexivity|].
  split; [rewrite (Hcopy 1%nat) by lia; reflexivity|].
  split; [apply Hzero; lia|].
  split; [apply Hzero; lia | exact Herr].
Defined.

Lemma read_into_buffer_unreadable_witness :
  let buffer := replicate 160 xff ++ [xaa; xbb] in
  let r := read_into_buffer 160 0 buffer [x47; x45; x54] 100 in
  fst r !! 0%nat = Some x00
  /\ fst r !! 159%nat = Some x00
  /\ fst r !! 160%nat = Some xaa
  /\ snd r = 1%nat.
Proof.
  intros buffer r. subst r.
  assert (Hrange : 0 < 160 < 2 ^ 32) by lia.
  assert (Hd : 1 <= 100) by lia.
  assert (Hlen : 160 <= Z.of_nat (length buffer))
    by (vm_compute; discriminate).
  assert (Hshort : Z.of_nat (length [x47; x45; x54]) < read_size 160 100)
    by (vm_compute; reflexivity).
  destruct (proj1 (read_into_buffer_unreadable 160 Hrange 0%nat buffer
                     [x47; x45; x54] 100 Hd Hlen) Hshort)
    as (Hzero & Hout & Herr).
  split; [apply Hzero; lia|].
  split; [apply Hzero; lia|].
  split; [|exact Herr].
  rewrite (Hout 160%nat) by lia. reflexivity.
Defined.

End HttpBufferSpec.
